(** * Jester stdlib: the dynamic array

    A shallow embedding of the two dynamic-array implementations of the
    repository,

      - [src/data_structures/array/jester_dynamic_array.c]  (module [BoolVariant]:
        the operations report success or failure as a [bool]), and
      - [src/datastructs/array/jester-dynamic-array.c]      (module [VoidVariant]:
        most operations return nothing),

    together with the properties of the container stated in the specification.

    Conventions of the embedding.

    - [size_t] is a 64-bit unsigned integer, carried as a [Z] in
      [0, 2^64); every C multiplication, increment and decrement is written
      with its wrap-around ([SizeT.mul], [SizeT.succ], [SizeT.pred]).
    - A heap block is the list of its cells; a cell is [Some b] for an
      initialised byte and [None] for an indeterminate one (what [malloc] and
      the tail of a growing [realloc] hand out).  A [void*] that is either
      [NULL] or the start of a block is an [option block].
    - The allocator is a caller of the environment: whether a request is
      served is an input ([ok : bool]) of every operation that calls
      [malloc] or [realloc].  A request that is not served returns [NULL].
      A [realloc] for more than zero bytes that returns [NULL] leaves the old
      block as it was.  A request for zero bytes may be served (with an empty
      block) or not, as on real platforms; a [realloc(p, 0)] on a live block
      that returns [NULL] has released the block, as glibc does: the caller
      still holds the address, with no byte behind it ([left_behind]).
    - The state follows the bytes a pointer gives access to, not the
      bookkeeping of the allocator: a released block is a block without
      bytes, and leaks or a second release of the same block are not
      tracked.
    - [memcpy] outside the bounds of a block, or through [NULL], is undefined
      behaviour: the operation ends in [Fault] and has no final state. *)

From Stdlib Require Import ZArith List Bool Lia Strings.Byte.
Import ListNotations.
Open Scope Z_scope.

(** ** [size_t] arithmetic *)

Module SizeT.

Definition modulus : Z := 2 ^ 64.

Definition wrap (x : Z) : Z := x mod modulus.

Definition mul (x y : Z) : Z := wrap (x * y).

Definition succ (x : Z) : Z := wrap (x + 1).

Definition pred (x : Z) : Z := wrap (x - 1).

Definition in_range (x : Z) : Prop := 0 <= x < modulus.

End SizeT.

(** ** Results of operations that touch memory *)

Inductive outcome (A : Type) : Type :=
| Done (x : A)
| Fault.

Arguments Done {A} x.
Arguments Fault {A}.

Definition bind {A B : Type} (m : outcome A) (k : A -> outcome B) : outcome B :=
  match m with
  | Done x => k x
  | Fault => Fault
  end.

Definition omap {A B : Type} (f : A -> B) (m : outcome A) : outcome B :=
  bind m (fun x => Done (f x)).

Notation "x <- m ;; k" := (bind m (fun x => k))
  (at level 61, m at next level, right associativity).

(** ** Blocks, the allocator and [memcpy] *)

Module Memory.

Definition cell : Type := option byte.

Definition block : Type := list cell.

Definition blen (b : block) : Z := Z.of_nat (length b).

Definition take (n : Z) (b : block) : block := firstn (Z.to_nat n) b.

Definition drop (n : Z) (b : block) : block := skipn (Z.to_nat n) b.

(** [n] cells of indeterminate content. *)
Definition fresh (n : Z) : block := repeat None (Z.to_nat n).

(** [malloc(n)]: [None] is [NULL]. *)
Definition malloc (ok : bool) (n : Z) : option block :=
  if ok then Some (fresh n) else None.

(** The block [realloc] hands back when it serves the request: the old
    content up to the smaller of the two sizes, then indeterminate cells. *)
Definition resize (b : block) (n : Z) : block :=
  take n b ++ fresh (n - blen b).

(** The pointer returned by [realloc(p, n)]; [realloc(NULL, n)] is
    [malloc(n)].  [None] is [NULL]: what the caller's old pointer [p] then
    refers to is [left_behind p n]. *)
Definition realloc (ok : bool) (p : option block) (n : Z) : option block :=
  if ok then
    Some (match p with
          | Some b => resize b n
          | None => fresh n
          end)
  else None.

(** What the old pointer [p] refers to after [realloc(p, n)] returned
    [NULL].  For [n > 0] the old block is untouched.  For [n = 0] on a live
    block the block has been released: the address is still in the caller's
    hands, but no byte of it is left. *)
Definition left_behind (p : option block) (n : Z) : option block :=
  match p with
  | Some b => if n =? 0 then Some [] else Some b
  | None => None
  end.

(** The source side of [memcpy(_, p + off, n)]. *)
Definition load (p : option block) (off n : Z) : outcome (list cell) :=
  match p with
  | Some b =>
      if off + n <=? blen b then Done (take n (drop off b)) else Fault
  | None => Fault
  end.

(** The destination side of [memcpy(p + off, src, |src|)]: the block after
    the copy. *)
Definition store (p : option block) (off : Z) (src : list cell)
  : outcome block :=
  match p with
  | Some b =>
      if off + blen src <=? blen b
      then Done (take off b ++ src ++ drop (off + blen src) b)
      else Fault
  | None => Fault
  end.

End Memory.

Import Memory.

(** ** The container *)

(** [struct DynamicArray]. *)
Record DynamicArray : Type := mkDynamicArray {
  data : option block;
  count : Z;
  capacity : Z;
  element_size : Z
}.

(** [DynamicArray_t dynamic_array = {};] and the state the reset paths
    write. *)
Definition zeroed : DynamicArray :=
  {| data := None; count := 0; capacity := 0; element_size := 0 |}.

Definition set_data (a : DynamicArray) (p : option block) : DynamicArray :=
  {| data := p; count := count a; capacity := capacity a;
     element_size := element_size a |}.

Definition set_count (a : DynamicArray) (n : Z) : DynamicArray :=
  {| data := data a; count := n; capacity := capacity a;
     element_size := element_size a |}.

Definition set_capacity (a : DynamicArray) (n : Z) : DynamicArray :=
  {| data := data a; count := count a; capacity := n;
     element_size := element_size a |}.

Definition set_element_size (a : DynamicArray) (n : Z) : DynamicArray :=
  {| data := data a; count := count a; capacity := capacity a;
     element_size := n |}.

(** What [get_dynamic_array_element] returns: [NULL], or the address
    [(char* )a->data + off]. *)
Inductive pointer : Type :=
| NullPtr
| InData (off : Z).

(** Reading one element through a pointer returned by
    [get_dynamic_array_element]. *)
Definition read_element (a : DynamicArray) (p : pointer) : outcome (list cell) :=
  match p with
  | NullPtr => Fault
  | InData off => load (data a) off (element_size a)
  end.

(** The bytes of the [count] stored elements, in order: the first
    [element_size * count] bytes of the storage. *)
Definition stored_elements (a : DynamicArray) : list cell :=
  match data a with
  | Some b => take (element_size a * count a) b
  | None => []
  end.

(** The data-model invariant of a buffer: every field is a [size_t],
    [count <= capacity], and the storage, when allocated, holds exactly
    [capacity * element_size] bytes; without storage the capacity is 0. *)
Definition well_formed (a : DynamicArray) : Prop :=
  SizeT.in_range (count a) /\ SizeT.in_range (capacity a) /\
  SizeT.in_range (element_size a) /\
  count a <= capacity a /\
  element_size a * capacity a < SizeT.modulus /\
  match data a with
  | Some b => blen b = element_size a * capacity a
  | None => capacity a = 0
  end.

(** *** The variant that reports outcomes
    ([src/data_structures/array/jester_dynamic_array.c]) *)

Module BoolVariant.

Definition create_dynamic_array (ok : bool) (element_size capacity : Z)
  : DynamicArray :=
  let total_byte := SizeT.mul element_size capacity in
  match malloc ok total_byte with
  | None => zeroed
  | Some p =>
      {| data := Some p; count := 0; capacity := capacity;
         element_size := element_size |}
  end.

(** [const size_t new_capacity = a->capacity * 2;] *)
Definition push_new_capacity (a : DynamicArray) : Z :=
  SizeT.mul (capacity a) 2.

(** [const size_t new_size = a->element_size * new_capacity;] *)
Definition push_new_size (a : DynamicArray) : Z :=
  SizeT.mul (element_size a) (push_new_capacity a).

(** The growth step of [push_dynamic_array]: [None] when [realloc]
    returned [NULL]. *)
Definition push_grow (ok : bool) (a : DynamicArray) : option DynamicArray :=
  if count a =? capacity a then
    let new_capacity := push_new_capacity a in
    let new_size := SizeT.mul (element_size a) new_capacity in
    match realloc ok (data a) new_size with
    | Some temp_ptr => Some (set_capacity (set_data a (Some temp_ptr)) new_capacity)
    | None => None
    end
  else Some a.

Definition push_dynamic_array (ok : bool) (a : DynamicArray) (d : list cell)
  : outcome (DynamicArray * bool) :=
  match push_grow ok a with
  | None => Done (set_data a (left_behind (data a) (push_new_size a)), false)
  | Some a1 =>
      bytes <- load (Some d) 0 (element_size a1) ;;
      b <- store (data a1) (SizeT.mul (count a1) (element_size a1)) bytes ;;
      Done (set_count (set_data a1 (Some b)) (SizeT.succ (count a1)), true)
  end.

Definition get_dynamic_array_element (a : DynamicArray) (i : Z) : pointer :=
  if i >=? count a then NullPtr
  else InData (SizeT.mul (element_size a) i).

Definition clear_dynamic_array (a : DynamicArray) : DynamicArray * bool :=
  (set_count a 0, true).

Definition free_dynamic_array (a : DynamicArray) : DynamicArray * bool :=
  match data a with
  | Some _ =>
      (set_element_size (set_capacity (set_count (set_data a None) 0) 0) 0,
       true)
  | None => (a, false)
  end.

Definition reserve_dynamic_array (ok : bool) (a : DynamicArray)
    (new_capacity : Z) : DynamicArray * bool :=
  if capacity a >=? new_capacity then (a, true)
  else
    let new_size := SizeT.mul new_capacity (element_size a) in
    match realloc ok (data a) new_size with
    | Some temp_ptr =>
        (set_capacity (set_data a (Some temp_ptr)) new_capacity, true)
    | None => (set_data a (left_behind (data a) new_size), false)
    end.

Definition shrink_dynamic_array (ok : bool) (a : DynamicArray)
  : DynamicArray * bool :=
  if count a =? 0 then
    (set_element_size (set_capacity (set_data a None) 0) 0, false)
  else
    let new_size := SizeT.mul (element_size a) (count a) in
    match realloc ok (data a) new_size with
    | Some temp_ptr =>
        (set_capacity (set_data a (Some temp_ptr)) (count a), true)
    | None => (set_data a (left_behind (data a) new_size), false)
    end.

(** [dst] is the caller's buffer, [None] for a [NULL] destination; the
    result carries the buffer after the call. *)
Definition pop_dynamic_array (a : DynamicArray) (dst : option block)
  : outcome (DynamicArray * option block * bool) :=
  if count a =? 0 then Done (a, dst, false)
  else
    let a1 := set_count a (SizeT.pred (count a)) in
    match dst with
    | Some buf =>
        bytes <- load (data a1) (SizeT.mul (element_size a1) (count a1))
                      (element_size a1) ;;
        buf' <- store (Some buf) 0 bytes ;;
        Done (a1, Some buf', true)
    | None => Done (a1, None, true)
    end.

(** [src] and [dst] are distinct objects; every field of [dst] is
    overwritten before it is read. *)
Definition copy_dynamic_array (ok : bool) (src dst : DynamicArray)
  : outcome (DynamicArray * bool) :=
  let dst1 := set_capacity
                (set_element_size (set_count dst (count src))
                   (element_size src))
                (capacity src) in
  match malloc ok (SizeT.mul (element_size src) (capacity src)) with
  | None =>
      Done (set_capacity
              (set_element_size (set_count (set_data dst1 None) 0) 0) 0,
            false)
  | Some p =>
      let dst2 := set_data dst1 (Some p) in
      match data src with
      | Some _ =>
          bytes <- load (data src) 0
                        (SizeT.mul (element_size src) (count src)) ;;
          b <- store (data dst2) 0 bytes ;;
          Done (set_data dst2 (Some b), true)
      | None => Done (dst2, false)
      end
  end.

(** The buffers a client can obtain through the operations above, from
    [create_dynamic_array] on.  [copy_dynamic_array] overwrites its
    destination, so any [dst] will do. *)
Inductive reachable : DynamicArray -> Prop :=
| reach_create ok es cap :
    SizeT.in_range es -> SizeT.in_range cap ->
    reachable (create_dynamic_array ok es cap)
| reach_push ok a d a' r :
    reachable a -> push_dynamic_array ok a d = Done (a', r) -> reachable a'
| reach_clear a :
    reachable a -> reachable (fst (clear_dynamic_array a))
| reach_free a :
    reachable a -> reachable (fst (free_dynamic_array a))
| reach_reserve ok a n :
    reachable a -> reachable (fst (reserve_dynamic_array ok a n))
| reach_shrink ok a :
    reachable a -> reachable (fst (shrink_dynamic_array ok a))
| reach_pop a dst a' dst' r :
    reachable a -> pop_dynamic_array a dst = Done (a', dst', r) -> reachable a'
| reach_copy ok src dst dst' r :
    reachable src -> copy_dynamic_array ok src dst = Done (dst', r) ->
    reachable dst'.

(** [n] pushes in a row, one allocator answer each, all of them reporting
    success; [None] as soon as one push fails or faults. *)
Fixpoint push_all (oks : list bool) (a : DynamicArray) (vs : list block)
  : option DynamicArray :=
  match vs, oks with
  | [], _ => Some a
  | v :: vs', ok :: oks' =>
      match push_dynamic_array ok a v with
      | Done (a1, true) => push_all oks' a1 vs'
      | _ => None
      end
  | _ :: _, [] => None
  end.

End BoolVariant.

(** *** The variant that returns nothing
    ([src/datastructs/array/jester-dynamic-array.c]) *)

Module VoidVariant.

Definition create_dynamic_array (ok : bool) (element_size capacity : Z)
  : DynamicArray :=
  let total_byte := SizeT.mul element_size capacity in
  match malloc ok total_byte with
  | None => zeroed
  | Some p =>
      {| data := Some p; count := 0; capacity := capacity;
         element_size := element_size |}
  end.

Definition push_dynamic_array (ok : bool) (a : DynamicArray) (d : list cell)
  : outcome DynamicArray :=
  let new_capacity := SizeT.mul (capacity a) 2 in
  let new_size := SizeT.mul (element_size a) new_capacity in
  let grown :=
    if count a =? capacity a then
      match realloc ok (data a) new_size with
      | Some temp_ptr =>
          Some (set_capacity (set_data a (Some temp_ptr)) new_capacity)
      | None => None
      end
    else Some a in
  match grown with
  | None => Done (set_data a (left_behind (data a) new_size))
  | Some a1 =>
      bytes <- load (Some d) 0 (element_size a1) ;;
      b <- store (data a1) (SizeT.mul (count a1) (element_size a1)) bytes ;;
      Done (set_count (set_data a1 (Some b)) (SizeT.succ (count a1)))
  end.

Definition get_dynamic_array_element (a : DynamicArray) (i : Z) : pointer :=
  if i <? count a then InData (SizeT.mul (element_size a) i)
  else NullPtr.

Definition clear_dynamic_array (a : DynamicArray) : DynamicArray :=
  set_count a 0.

(** The fields are reset whether or not there was a block to free. *)
Definition free_dynamic_array (a : DynamicArray) : DynamicArray :=
  set_element_size (set_capacity (set_count (set_data a None) 0) 0) 0.

Definition reserve_dynamic_array (ok : bool) (a : DynamicArray)
    (new_capacity : Z) : DynamicArray :=
  if capacity a <? new_capacity then
    let new_size := SizeT.mul new_capacity (element_size a) in
    match realloc ok (data a) new_size with
    | Some temp_ptr => set_capacity (set_data a (Some temp_ptr)) new_capacity
    | None => set_data a (left_behind (data a) new_size)
    end
  else a.

Definition shrink_dynamic_array (ok : bool) (a : DynamicArray)
  : DynamicArray :=
  if count a =? 0 then
    set_element_size (set_capacity (set_data a None) 0) 0
  else
    let new_size := SizeT.mul (element_size a) (count a) in
    match realloc ok (data a) new_size with
    | Some temp_ptr => set_capacity (set_data a (Some temp_ptr)) (count a)
    | None => set_data a (left_behind (data a) new_size)
    end.

Definition pop_dynamic_array (a : DynamicArray) (dst : option block)
  : outcome (DynamicArray * option block * bool) :=
  if count a =? 0 then Done (a, dst, false)
  else
    let a1 := set_count a (SizeT.pred (count a)) in
    match dst with
    | Some buf =>
        bytes <- load (data a1) (SizeT.mul (element_size a1) (count a1))
                      (element_size a1) ;;
        buf' <- store (Some buf) 0 bytes ;;
        Done (a1, Some buf', true)
    | None => Done (a1, None, true)
    end.

Definition copy_dynamic_array (ok : bool) (src dst : DynamicArray)
  : outcome DynamicArray :=
  let dst1 := set_capacity
                (set_element_size (set_count dst (count src))
                   (element_size src))
                (capacity src) in
  match malloc ok (SizeT.mul (element_size src) (capacity src)) with
  | None =>
      Done (set_capacity
              (set_element_size (set_count (set_data dst1 None) 0) 0) 0)
  | Some p =>
      let dst2 := set_data dst1 (Some p) in
      match data src with
      | Some _ =>
          bytes <- load (data src) 0
                        (SizeT.mul (element_size src) (count src)) ;;
          b <- store (data dst2) 0 bytes ;;
          Done (set_data dst2 (Some b))
      | None => Done dst2
      end
  end.

Inductive reachable : DynamicArray -> Prop :=
| reach_create ok es cap :
    SizeT.in_range es -> SizeT.in_range cap ->
    reachable (create_dynamic_array ok es cap)
| reach_push ok a d a' :
    reachable a -> push_dynamic_array ok a d = Done a' -> reachable a'
| reach_clear a :
    reachable a -> reachable (clear_dynamic_array a)
| reach_free a :
    reachable a -> reachable (free_dynamic_array a)
| reach_reserve ok a n :
    reachable a -> reachable (reserve_dynamic_array ok a n)
| reach_shrink ok a :
    reachable a -> reachable (shrink_dynamic_array ok a)
| reach_pop a dst a' dst' r :
    reachable a -> pop_dynamic_array a dst = Done (a', dst', r) -> reachable a'
| reach_copy ok src dst dst' :
    reachable src -> copy_dynamic_array ok src dst = Done dst' ->
    reachable dst'.

End VoidVariant.

Import BoolVariant.

(** In a buffer without storage every field is zero. *)
Definition unallocated_is_zeroed (a : DynamicArray) : Prop :=
  data a = None -> count a = 0 /\ capacity a = 0 /\ element_size a = 0.

(** [holds_values es a vs]: the buffer [a] of element size [es] stores exactly
    the values [vs], in order, at the start of its storage. *)
Definition holds_values (es : Z) (a : DynamicArray) (vs : list block) : Prop :=
  element_size a = es /\
  count a = Z.of_nat (length vs) /\
  exists b, data a = Some b /\
            blen b < SizeT.modulus /\
            es * count a <= blen b /\
            take (es * count a) b = concat vs.

(** *** Concrete buffers and values used in the examples *)

(** The 32-bit little-endian integers 10, 20 and 30. *)
Definition le10 : block := [Some x0a; Some x00; Some x00; Some x00].
Definition le20 : block := [Some x14; Some x00; Some x00; Some x00].
Definition le30 : block := [Some x1e; Some x00; Some x00; Some x00].

(** [create_dynamic_array(4, 0)] on a platform whose [malloc(0)] returns a
    block. *)
Definition zero_capacity_array : DynamicArray :=
  create_dynamic_array true 4 0.

(** [create_dynamic_array(4, 2)] followed by [shrink_dynamic_array]. *)
Definition shrunk_empty_array : DynamicArray :=
  fst (shrink_dynamic_array true (create_dynamic_array true 4 2)).

(** Two 4-byte elements in a full buffer of capacity 2. *)
Definition full_array : DynamicArray :=
  {| data := Some (le10 ++ le20); count := 2; capacity := 2;
     element_size := 4 |}.

(** Two 4-byte elements in a buffer of capacity 4. *)
Definition roomy_array : DynamicArray :=
  {| data := Some (le10 ++ le20 ++ fresh 8); count := 2; capacity := 4;
     element_size := 4 |}.

(** A request whose byte size [4 * (2^62 + 1)] wraps around to 4. *)
Definition wrapping_request : Z := 2 ^ 62 + 1.

(** A request whose byte size [4 * 2^62] wraps around to 0. *)
Definition zero_size_request : Z := 2 ^ 62.

(** [full_array] after its block was released: the fields are as before,
    the bytes are gone. *)
Definition full_array_released : DynamicArray :=
  {| data := Some []; count := 2; capacity := 2; element_size := 4 |}.

(** The buffer a refused [create_dynamic_array(4, 2)] returns, after three
    pushes that reported success. *)
Definition pushed_after_refused_create : DynamicArray :=
  {| data := Some []; count := 3; capacity := 0; element_size := 0 |}.


(** ** Proof automation *)

(** Reduces field projections of updated records. *)
Ltac fields :=
  cbn [data count capacity element_size
       set_data set_count set_capacity set_element_size].

(** Splits on the outcome of the first memory access of the goal. *)
Ltac split_access :=
  match goal with
  | |- context [bind ?m _] =>
      destruct m; cbn [bind]; [ | try discriminate ]
  end.

(** ** Arithmetic and list facts used below *)

Lemma modulus_pos : 0 < SizeT.modulus.
Proof. reflexivity. Qed.

Lemma wrap_small (x : Z) : SizeT.in_range x -> SizeT.wrap x = x.
Proof. intros H. unfold SizeT.wrap. apply Z.mod_small. exact H. Qed.

Lemma wrap_in_range (x : Z) : SizeT.in_range (SizeT.wrap x).
Proof. unfold SizeT.in_range, SizeT.wrap. apply Z.mod_pos_bound. reflexivity. Qed.

Lemma mul_small (x y : Z) :
  0 <= x -> 0 <= y -> x * y < SizeT.modulus -> SizeT.mul x y = x * y.
Proof.
  intros Hx Hy H. unfold SizeT.mul. apply wrap_small. split; [nia | exact H].
Qed.

Lemma mul_in_range (x y : Z) : SizeT.in_range (SizeT.mul x y).
Proof. apply wrap_in_range. Qed.

Lemma blen_nonneg (b : block) : 0 <= blen b.
Proof. unfold blen. lia. Qed.

Lemma blen_app (b c : block) : blen (b ++ c) = blen b + blen c.
Proof. unfold blen. rewrite length_app. lia. Qed.

Lemma blen_take (n : Z) (b : block) :
  0 <= n -> blen (take n b) = Z.min n (blen b).
Proof. intros H. unfold blen, take. rewrite length_firstn. lia. Qed.

Lemma blen_drop (n : Z) (b : block) :
  0 <= n -> blen (drop n b) = Z.max 0 (blen b - n).
Proof. intros H. unfold blen, drop. rewrite length_skipn. lia. Qed.

Lemma blen_fresh (n : Z) : blen (fresh n) = Z.max 0 n.
Proof. unfold blen, fresh. rewrite repeat_length. lia. Qed.

Lemma blen_resize (b : block) (n : Z) : 0 <= n -> blen (resize b n) = n.
Proof.
  intros H. unfold resize. rewrite blen_app, blen_take, blen_fresh by lia.
  pose proof (blen_nonneg b). lia.
Qed.

Lemma take_all (n : Z) (b : block) : blen b <= n -> take n b = b.
Proof. unfold blen, take. intros H. apply firstn_all2. lia. Qed.

Lemma take_app_le (k : Z) (b c : block) :
  k <= blen b -> take k (b ++ c) = take k b.
Proof.
  unfold blen, take. intros H. rewrite firstn_app.
  replace (Z.to_nat k - length b)%nat with 0%nat by lia.
  simpl. apply app_nil_r.
Qed.

Lemma take_take (k n : Z) (b : block) : k <= n -> take k (take n b) = take k b.
Proof.
  unfold take. intros H. rewrite firstn_firstn.
  f_equal. lia.
Qed.

Lemma take_resize (k n : Z) (b : block) :
  0 <= k <= n -> k <= blen b -> take k (resize b n) = take k b.
Proof.
  intros Hk Hb. unfold resize.
  rewrite take_app_le by (rewrite blen_take by lia; lia).
  apply take_take. lia.
Qed.

Lemma resize_grow (b : block) (n : Z) :
  blen b <= n -> resize b n = b ++ fresh (n - blen b).
Proof. intros H. unfold resize. rewrite take_all by exact H. reflexivity. Qed.

Lemma take_drop_id (k : Z) (b : block) : take k b ++ drop k b = b.
Proof. unfold take, drop. apply firstn_skipn. Qed.

Lemma drop_drop (j k : Z) (b : block) :
  0 <= j -> 0 <= k -> drop j (drop k b) = drop (k + j) b.
Proof.
  intros Hj Hk. unfold drop. rewrite skipn_skipn. f_equal. lia.
Qed.

(** Writing back the bytes that are already there changes nothing. *)
Lemma splice_same (off n : Z) (b : block) :
  0 <= off -> 0 <= n ->
  take off b ++ take n (drop off b) ++ drop (off + n) b = b.
Proof.
  intros Hoff Hn.
  rewrite <- (drop_drop n off b) by lia.
  rewrite take_drop_id. apply take_drop_id.
Qed.

(** ** Case analysis of the operations *)

Lemma push_grow_none (ok : bool) (a : DynamicArray) :
  push_grow ok a = None <-> count a = capacity a /\ ok = false.
Proof.
  unfold push_grow, realloc.
  destruct (Z.eqb_spec (count a) (capacity a)) as [E | E]; destruct ok;
    split; intros H; try discriminate; try tauto;
    destruct H as [H1 H2]; congruence.
Qed.

Lemma left_behind_none (p : option block) (n : Z) :
  left_behind p n = None <-> p = None.
Proof.
  unfold left_behind. destruct p as [b | ]; [ | tauto ].
  destruct (n =? 0); split; discriminate.
Qed.

Lemma left_behind_kept (p : option block) (n : Z) :
  n <> 0 \/ p = None -> left_behind p n = p.
Proof.
  unfold left_behind. intros [Hn | ->]; [ | reflexivity ].
  destruct p as [b | ]; [ | reflexivity ].
  destruct (Z.eqb_spec n 0); [ contradiction | reflexivity ].
Qed.

Lemma left_behind_empty (b : block) (n : Z) :
  blen b = 0 -> left_behind (Some b) n = Some b.
Proof.
  unfold left_behind, blen. intros H.
  destruct b; [ | simpl in H; lia ].
  destruct (n =? 0); reflexivity.
Qed.

Lemma set_data_same (a : DynamicArray) : set_data a (data a) = a.
Proof. destruct a. reflexivity. Qed.

Lemma push_reports_failure (ok : bool) (a a' : DynamicArray) (d : list cell) :
  push_dynamic_array ok a d = Done (a', false) ->
  push_grow ok a = None /\
  a' = set_data a (left_behind (data a) (push_new_size a)).
Proof.
  unfold push_dynamic_array.
  destruct (push_grow ok a) as [a1 | ].
  - destruct (load (Some d) 0 (element_size a1)) as [bytes | ];
      [ | discriminate ].
    cbn [bind].
    destruct (store (data a1) (SizeT.mul (count a1) (element_size a1)) bytes);
      cbn [bind]; intros H; inversion H.
  - intros H. inversion H. auto.
Qed.

(** A successful push, taken apart: the buffer after the growth step, the
    bytes read from the caller and the block after the copy. *)
Lemma push_reports_success (ok : bool) (a a' : DynamicArray) (d : list cell) :
  push_dynamic_array ok a d = Done (a', true) ->
  exists a1 bytes b,
    push_grow ok a = Some a1 /\
    load (Some d) 0 (element_size a1) = Done bytes /\
    store (data a1) (SizeT.mul (count a1) (element_size a1)) bytes = Done b /\
    a' = set_count (set_data a1 (Some b)) (SizeT.succ (count a1)).
Proof.
  unfold push_dynamic_array.
  destruct (push_grow ok a) as [a1 | ]; [ | intros H; inversion H ].
  destruct (load (Some d) 0 (element_size a1)) as [bytes | ] eqn:Hl;
    [ | discriminate ].
  cbn [bind].
  destruct (store (data a1) (SizeT.mul (count a1) (element_size a1)) bytes)
    as [b | ] eqn:Hs; cbn [bind]; intros H; inversion H.
  exists a1, bytes, b. auto.
Qed.

Lemma load_done (p : option block) (off n : Z) (bytes : list cell) :
  load p off n = Done bytes ->
  exists b, p = Some b /\ off + n <= blen b /\ bytes = take n (drop off b).
Proof.
  unfold load. destruct p as [b | ]; [ | discriminate ].
  destruct (Z.leb_spec (off + n) (blen b)) as [Hle | Hgt]; [ | discriminate ].
  intros E. inversion E. eauto.
Qed.

Lemma store_done (p : option block) (off : Z) (src : list cell) (b' : block) :
  store p off src = Done b' ->
  exists b, p = Some b /\ off + blen src <= blen b /\
            b' = take off b ++ src ++ drop (off + blen src) b.
Proof.
  unfold store. destruct p as [b | ]; [ | discriminate ].
  destruct (Z.leb_spec (off + blen src) (blen b)) as [Hle | Hgt];
    [ | discriminate ].
  intros E. inversion E. eauto.
Qed.

Lemma load_in_bounds (b : block) (off n : Z) :
  off + n <= blen b -> load (Some b) off n = Done (take n (drop off b)).
Proof.
  intros H. unfold load.
  destruct (Z.leb_spec (off + n) (blen b)); [ reflexivity | lia ].
Qed.

Lemma store_in_bounds (b : block) (off : Z) (src : list cell) :
  off + blen src <= blen b ->
  store (Some b) off src = Done (take off b ++ src ++ drop (off + blen src) b).
Proof.
  intros H. unfold store.
  destruct (Z.leb_spec (off + blen src) (blen b)); [ reflexivity | lia ].
Qed.

(** ** Allocation failure *)

(** What a reported failure leaves behind.  A push, a reserve or a shrink of
    a non-empty buffer that returns [false] was refused by the allocator and
    changes no field but, possibly, the storage: the storage is what
    [realloc] left behind.  It is exactly as before when the request was for
    more than zero bytes or there was no storage; a refused request for zero
    bytes has released it. *)
Theorem refused_allocation_keeps_buffer_unless_zero_bytes :
  forall (ok : bool) (a : DynamicArray) (d : list cell) (n : Z),
    (forall a',
        push_dynamic_array ok a d = Done (a', false) ->
        ok = false /\ count a = capacity a /\
        a' = set_data a (left_behind (data a) (push_new_size a))) /\
    (count a = capacity a ->
     push_dynamic_array false a d =
       Done (set_data a (left_behind (data a) (push_new_size a)), false)) /\
    (forall a',
        reserve_dynamic_array ok a n = (a', false) ->
        ok = false /\ capacity a < n /\
        a' = set_data a
               (left_behind (data a) (SizeT.mul n (element_size a)))) /\
    (capacity a < n ->
     reserve_dynamic_array false a n =
       (set_data a (left_behind (data a) (SizeT.mul n (element_size a))),
        false)) /\
    (forall a',
        count a <> 0 ->
        shrink_dynamic_array ok a = (a', false) ->
        ok = false /\
        a' = set_data a
               (left_behind (data a) (SizeT.mul (element_size a) (count a)))) /\
    (count a <> 0 ->
     shrink_dynamic_array false a =
       (set_data a
          (left_behind (data a) (SizeT.mul (element_size a) (count a))),
        false)) /\
    (forall size,
        size <> 0 \/ data a = None ->
        set_data a (left_behind (data a) size) = a).
Proof.
  intros ok a d n.
  split; [ | split; [ | split; [ | split; [ | split; [ | split ] ] ] ] ].
  - intros a' H. apply push_reports_failure in H. destruct H as [G ->].
    apply push_grow_none in G. tauto.
  - intros E. unfold push_dynamic_array.
    assert (G : push_grow false a = None) by (apply push_grow_none; auto).
    rewrite G. reflexivity.
  - intros a'. unfold reserve_dynamic_array.
    destruct (Z.geb_spec (capacity a) n); [ discriminate | ].
    cbv zeta. unfold realloc. destruct ok; [ discriminate | ].
    intros E. injection E as <-. split; [ reflexivity | ]. split; [ lia | ].
    reflexivity.
  - intros Hlt. unfold reserve_dynamic_array.
    destruct (Z.geb_spec (capacity a) n); [ lia | reflexivity ].
  - intros a' Hc. unfold shrink_dynamic_array.
    destruct (Z.eqb_spec (count a) 0); [ contradiction | ].
    cbv zeta. unfold realloc. destruct ok; [ discriminate | ].
    intros E. injection E as <-. auto.
  - intros Hc. unfold shrink_dynamic_array.
    destruct (Z.eqb_spec (count a) 0); [ contradiction | reflexivity ].
  - intros size H. rewrite left_behind_kept by exact H. apply set_data_same.
Qed.

Lemma refused_allocation_keeps_buffer_unless_zero_bytes_witness :
  push_dynamic_array false full_array le30 = Done (full_array, false) /\
  reserve_dynamic_array false full_array 5 = (full_array, false) /\
  shrink_dynamic_array false full_array = (full_array, false).
Proof.
  destruct (refused_allocation_keeps_buffer_unless_zero_bytes false full_array
              le30 5)
    as (_ & Hpush & _ & Hreserve & _ & Hshrink & Hsame).
  split; [ rewrite Hpush by reflexivity | ].
  { rewrite Hsame; [ reflexivity | left; discriminate ]. }
  split; [ rewrite Hreserve by (simpl; lia) | ].
  { rewrite Hsame; [ reflexivity | left; discriminate ]. }
  rewrite Hshrink by (simpl; lia).
  rewrite Hsame; [ reflexivity | left; discriminate ].
Defined.

(** C5.  A failed Reserve does not always leave the buffer as it was.
    Reserving [2^62] elements of 4 bytes in a well-formed buffer of two
    elements asks [realloc] for [4 * 2^62 = 0] bytes (the product wraps
    around); the allocator releases the block and returns [NULL], so the
    call reports [false] with count, capacity and element size as before
    and the bytes of the two stored elements gone. *)
Theorem refused_zero_byte_reserve_releases_storage :
  well_formed full_array /\
  SizeT.in_range zero_size_request /\
  capacity full_array < zero_size_request /\
  SizeT.mul zero_size_request (element_size full_array) = 0 /\
  reserve_dynamic_array false full_array zero_size_request =
    (full_array_released, false) /\
  stored_elements full_array = le10 ++ le20 /\
  stored_elements full_array_released = [] /\
  full_array_released <> full_array.
Proof.
  split.
  { unfold well_formed, SizeT.in_range, SizeT.modulus. simpl.
    unfold blen. simpl. lia. }
  split; [ unfold SizeT.in_range, SizeT.modulus, zero_size_request; lia | ].
  split; [ unfold zero_size_request; simpl; lia | ].
  repeat split; try reflexivity.
  discriminate.
Qed.

(** ** Growth from capacity zero *)

(** C1.  The growth step of [push_dynamic_array] asks for [capacity * 2], not
    for [max(1, capacity * 2)].  On a buffer of capacity 0 the request is for
    capacity 0 and for 0 bytes: when [realloc] serves it the 4-byte element
    is copied past the end of an empty block, and on a buffer whose element
    size was reset to 0 the push reports success with capacity still 0. *)
Theorem push_from_zero_capacity_requests_zero :
  zero_capacity_array =
    {| data := Some []; count := 0; capacity := 0; element_size := 4 |} /\
  push_new_capacity zero_capacity_array = 0 /\
  Z.max 1 (capacity zero_capacity_array * 2) = 1 /\
  push_grow true zero_capacity_array = Some zero_capacity_array /\
  push_dynamic_array true zero_capacity_array le10 = Fault /\
  push_dynamic_array false zero_capacity_array le10 =
    Done (zero_capacity_array, false) /\
  push_dynamic_array true zeroed le10 =
    Done ({| data := Some []; count := 1; capacity := 0; element_size := 0 |},
          true).
Proof. repeat split; reflexivity. Qed.

(** C3.  [count <= capacity] does not survive a push on a buffer of capacity
    0.  After [create_dynamic_array(4, 2)] and [shrink_dynamic_array] the
    buffer has count 0 and capacity 0; the next push, served by the
    allocator, reports success and leaves count 1 with capacity 0. *)
Theorem push_after_shrink_exceeds_capacity :
  shrunk_empty_array = zeroed /\
  count shrunk_empty_array <= capacity shrunk_empty_array /\
  exists a,
    push_dynamic_array true shrunk_empty_array le10 = Done (a, true) /\
    count a = 1 /\ capacity a = 0 /\ ~ count a <= capacity a.
Proof.
  split; [ reflexivity | ].
  split; [ simpl; lia | ].
  exists {| data := Some []; count := 1; capacity := 0; element_size := 0 |}.
  split; [ reflexivity | ].
  simpl. repeat split; lia.
Qed.

(** ** Copy from a source without storage *)

(** C2.  When the source has no storage and the allocation for the
    destination is served, [copy_dynamic_array] returns [false] but leaves
    the destination with the new block and the metadata of the source; only
    the refused allocation resets the destination. *)
Theorem copy_from_unallocated_source_keeps_block :
  copy_dynamic_array true zeroed zeroed =
    Done ({| data := Some []; count := 0; capacity := 0; element_size := 0 |},
          false) /\
  copy_dynamic_array false zeroed zeroed = Done (zeroed, false) /\
  copy_dynamic_array true
    {| data := None; count := 3; capacity := 8; element_size := 4 |} zeroed =
    Done ({| data := Some (fresh 32); count := 3; capacity := 8;
             element_size := 4 |}, false).
Proof. repeat split; reflexivity. Qed.

(** ** Buffers without storage *)

Lemma pop_done (a a' : DynamicArray) (dst dst' : option block) (r : bool) :
  pop_dynamic_array a dst = Done (a', dst', r) ->
  (count a = 0 /\ a' = a /\ r = false) \/
  (count a <> 0 /\ a' = set_count a (SizeT.pred (count a)) /\ r = true).
Proof.
  unfold pop_dynamic_array. cbv zeta.
  destruct (Z.eqb_spec (count a) 0) as [E | E].
  - intros H. injection H as <- _ <-. left. auto.
  - destruct dst as [buf | ].
    + do 2 split_access. intros H. injection H as <- _ <-. right. auto.
    + intros H. injection H as <- _ <-. right. auto.
Qed.

Lemma copy_done (ok : bool) (src dst dst' : DynamicArray) (r : bool) :
  copy_dynamic_array ok src dst = Done (dst', r) ->
  (ok = false /\ dst' = zeroed) \/ (ok = true /\ data dst' <> None).
Proof.
  unfold copy_dynamic_array, malloc. cbv zeta. destruct ok.
  - destruct (data src) as [sb | ].
    + do 2 split_access. intros H. injection H as <- _.
      right. split; [ reflexivity | discriminate ].
    + intros H. injection H as <- _.
      right. split; [ reflexivity | discriminate ].
  - intros H. injection H as <- _. left. auto.
Qed.

(** Every operation keeps the fields of a buffer without storage at zero. *)
Lemma reachable_unallocated_is_zeroed (a : DynamicArray) :
  reachable a -> unallocated_is_zeroed a.
Proof.
  unfold unallocated_is_zeroed.
  induction 1 as [ok es cap Hes Hcap | ok a d a' r Ha IH Hp | a Ha IH
                  | a Ha IH | ok a n Ha IH | ok a Ha IH
                  | a dst a' dst' r Ha IH Hp | ok src dst dst' r Ha IH Hc ].
  - unfold create_dynamic_array, malloc. destruct ok; simpl;
      [ discriminate | auto ].
  - destruct r.
    + apply push_reports_success in Hp.
      destruct Hp as (a1 & bytes & b & _ & _ & _ & ->). discriminate.
    + apply push_reports_failure in Hp. destruct Hp as [_ ->].
      simpl. intros Hd. apply left_behind_none in Hd. apply IH. exact Hd.
  - simpl. intros Hd. destruct (IH Hd) as (_ & ? & ?). auto.
  - unfold free_dynamic_array. destruct (data a) eqn:E; simpl; auto.
  - unfold reserve_dynamic_array, realloc.
    destruct (capacity a >=? n); [ exact IH | ].
    destruct ok; simpl; [ discriminate | ].
    intros Hd. apply left_behind_none in Hd. apply IH. exact Hd.
  - unfold shrink_dynamic_array, realloc.
    destruct (Z.eqb_spec (count a) 0) as [E | E]; simpl; [ auto | ].
    destruct ok; simpl; [ discriminate | ].
    intros Hd. apply left_behind_none in Hd. apply IH. exact Hd.
  - apply pop_done in Hp. destruct Hp as [(_ & -> & _) | (Hc & -> & _)];
      [ exact IH | ].
    simpl. intros Hd. destruct (IH Hd) as (? & _). contradiction.
  - apply copy_done in Hc. destruct Hc as [(_ & ->) | (_ & Hd)];
      [ simpl; auto | ].
    intros E. contradiction.
Qed.

Lemma create_is_reachable (ok : bool) (es cap : Z) :
  SizeT.in_range es -> SizeT.in_range cap ->
  reachable (create_dynamic_array ok es cap).
Proof. apply reach_create. Qed.

(** ** Construction with capacity zero *)

(** C4, as stated, fails: when the allocator serves the zero-byte request,
    [create_dynamic_array(4, 0)] returns a buffer that owns a block and
    records element size 4.  It differs from the buffer returned on
    allocation failure, and it has capacity 0 with storage allocated. *)
Lemma create_zero_capacity_may_own_a_block :
  data zero_capacity_array <> None /\
  element_size zero_capacity_array = 4 /\
  zero_capacity_array <> create_dynamic_array false 4 0 /\
  capacity zero_capacity_array = 0 /\
  ~ (capacity zero_capacity_array = 0 ->
     data zero_capacity_array = None /\ count zero_capacity_array = 0).
Proof.
  repeat split; try discriminate; try reflexivity.
  intros H. destruct (H eq_refl) as [H1 _]. discriminate H1.
Qed.

(** C4, amended.  [create_dynamic_array(element_size, 0)] returns count 0 and
    capacity 0 whatever the allocator answers.  When the zero-byte request is
    refused the result is the zeroed buffer, the same as after any failed
    allocation; when it is served the buffer owns an empty block and records
    the element size.  In every buffer reachable through the operations,
    absent storage implies count 0, capacity 0 and element size 0. *)
Theorem create_zero_capacity_and_unallocated_buffers :
  forall (ok : bool) (es : Z) (a : DynamicArray),
    reachable a ->
    count (create_dynamic_array ok es 0) = 0 /\
    capacity (create_dynamic_array ok es 0) = 0 /\
    create_dynamic_array false es 0 = zeroed /\
    (forall cap, create_dynamic_array false es cap = zeroed) /\
    create_dynamic_array true es 0 =
      {| data := Some []; count := 0; capacity := 0; element_size := es |} /\
    (data a = None ->
     count a = 0 /\ capacity a = 0 /\ element_size a = 0).
Proof.
  intros ok es a Ha.
  assert (E : SizeT.mul es 0 = 0)
    by (unfold SizeT.mul; rewrite Z.mul_0_r; reflexivity).
  repeat split; try reflexivity.
  - destruct ok; reflexivity.
  - destruct ok; reflexivity.
  - unfold create_dynamic_array. rewrite E. reflexivity.
  - apply (reachable_unallocated_is_zeroed a Ha); assumption.
  - apply (reachable_unallocated_is_zeroed a Ha); assumption.
  - apply (reachable_unallocated_is_zeroed a Ha); assumption.
Qed.

Lemma create_zero_capacity_and_unallocated_buffers_witness :
  capacity zero_capacity_array = 0 /\
  (data shrunk_empty_array = None -> count shrunk_empty_array = 0).
Proof.
  assert (R : reachable shrunk_empty_array).
  { apply reach_shrink.
    apply reach_create; unfold SizeT.in_range, SizeT.modulus; lia. }
  destruct (create_zero_capacity_and_unallocated_buffers true 4
              shrunk_empty_array R) as (_ & Hcap & _ & _ & _ & Hz).
  split; [ exact Hcap | ].
  intros Hd. apply (Hz Hd).
Defined.

(** ** The two variants *)

Lemma void_push (ok : bool) (a : DynamicArray) (d : list cell) :
  VoidVariant.push_dynamic_array ok a d =
  omap fst (BoolVariant.push_dynamic_array ok a d).
Proof.
  unfold VoidVariant.push_dynamic_array, BoolVariant.push_dynamic_array,
    push_grow, push_new_capacity, omap.
  destruct (count a =? capacity a).
  - cbv zeta.
    destruct (realloc ok (data a) _) as [temp_ptr | ]; [ | reflexivity ].
    do 2 (split_access; [ | reflexivity ]). reflexivity.
  - do 2 (split_access; [ | reflexivity ]). reflexivity.
Qed.

Lemma void_get (a : DynamicArray) (i : Z) :
  VoidVariant.get_dynamic_array_element a i =
  BoolVariant.get_dynamic_array_element a i.
Proof.
  unfold VoidVariant.get_dynamic_array_element,
    BoolVariant.get_dynamic_array_element.
  destruct (Z.ltb_spec i (count a)), (Z.geb_spec i (count a));
    try reflexivity; lia.
Qed.

Lemma void_free (a : DynamicArray) :
  unallocated_is_zeroed a ->
  VoidVariant.free_dynamic_array a = fst (BoolVariant.free_dynamic_array a).
Proof.
  unfold unallocated_is_zeroed, VoidVariant.free_dynamic_array,
    BoolVariant.free_dynamic_array.
  destruct a as [p n c e]. simpl. destruct p as [b | ]; [ reflexivity | ].
  intros H. destruct (H eq_refl) as (-> & -> & ->). reflexivity.
Qed.

Lemma void_reserve (ok : bool) (a : DynamicArray) (n : Z) :
  VoidVariant.reserve_dynamic_array ok a n =
  fst (BoolVariant.reserve_dynamic_array ok a n).
Proof.
  unfold VoidVariant.reserve_dynamic_array, BoolVariant.reserve_dynamic_array.
  destruct (Z.ltb_spec (capacity a) n), (Z.geb_spec (capacity a) n);
    try lia; [ | reflexivity ].
  cbv zeta. destruct (realloc ok (data a) _); reflexivity.
Qed.

Lemma void_shrink (ok : bool) (a : DynamicArray) :
  VoidVariant.shrink_dynamic_array ok a =
  fst (BoolVariant.shrink_dynamic_array ok a).
Proof.
  unfold VoidVariant.shrink_dynamic_array, BoolVariant.shrink_dynamic_array.
  destruct (count a =? 0); [ reflexivity | ].
  cbv zeta. destruct (realloc ok (data a) _); reflexivity.
Qed.

Lemma void_copy (ok : bool) (src dst : DynamicArray) :
  VoidVariant.copy_dynamic_array ok src dst =
  omap fst (BoolVariant.copy_dynamic_array ok src dst).
Proof.
  unfold VoidVariant.copy_dynamic_array, BoolVariant.copy_dynamic_array, omap.
  cbv zeta. destruct (malloc ok _) as [p | ]; [ | reflexivity ].
  destruct (data src) as [sb | ]; [ | reflexivity ].
  do 2 (split_access; [ | reflexivity ]). reflexivity.
Qed.

Lemma omap_fst_done {A B : Type} (m : outcome (A * B)) (x : A) (y : B) :
  m = Done (x, y) -> omap fst m = Done x.
Proof. intros ->. reflexivity. Qed.

Lemma omap_done {A B : Type} (f : A -> B) (m : outcome A) (y : B) :
  omap f m = Done y -> exists x, m = Done x /\ y = f x.
Proof.
  destruct m as [x | ]; [ | discriminate ].
  intros H. injection H as <-. eauto.
Qed.

(** The buffers reachable in one variant are the buffers reachable in the
    other. *)
Lemma bool_reachable_is_void_reachable (a : DynamicArray) :
  BoolVariant.reachable a -> VoidVariant.reachable a.
Proof.
  induction 1 as [ok es cap Hes Hcap | ok a d a' r Ha IH Hp | a Ha IH
                  | a Ha IH | ok a n Ha IH | ok a Ha IH
                  | a dst a' dst' r Ha IH Hp | ok src dst dst' r Ha IH Hc ].
  - apply (VoidVariant.reach_create ok es cap Hes Hcap).
  - apply (VoidVariant.reach_push ok a d a' IH).
    rewrite void_push. apply (omap_fst_done _ _ _ Hp).
  - apply (VoidVariant.reach_clear a IH).
  - rewrite <- void_free by (apply reachable_unallocated_is_zeroed; exact Ha).
    apply (VoidVariant.reach_free a IH).
  - rewrite <- void_reserve. apply (VoidVariant.reach_reserve ok a n IH).
  - rewrite <- void_shrink. apply (VoidVariant.reach_shrink ok a IH).
  - apply (VoidVariant.reach_pop a dst a' dst' r IH Hp).
  - apply (VoidVariant.reach_copy ok src dst dst' IH).
    rewrite void_copy. apply (omap_fst_done _ _ _ Hc).
Qed.

Lemma void_reachable_is_bool_reachable (a : DynamicArray) :
  VoidVariant.reachable a -> BoolVariant.reachable a.
Proof.
  induction 1 as [ok es cap Hes Hcap | ok a d a' Ha IH Hp | a Ha IH
                  | a Ha IH | ok a n Ha IH | ok a Ha IH
                  | a dst a' dst' r Ha IH Hp | ok src dst dst' Ha IH Hc ].
  - apply (BoolVariant.reach_create ok es cap Hes Hcap).
  - rewrite void_push in Hp. apply omap_done in Hp.
    destruct Hp as ([a1 r] & Hp & ->).
    apply (BoolVariant.reach_push ok a d a1 r IH Hp).
  - apply (BoolVariant.reach_clear a IH).
  - rewrite void_free by (apply reachable_unallocated_is_zeroed; exact IH).
    apply (BoolVariant.reach_free a IH).
  - rewrite void_reserve. apply (BoolVariant.reach_reserve ok a n IH).
  - rewrite void_shrink. apply (BoolVariant.reach_shrink ok a IH).
  - apply (BoolVariant.reach_pop a dst a' dst' r IH Hp).
  - rewrite void_copy in Hc. apply omap_done in Hc.
    destruct Hc as ([d1 r] & Hc & ->).
    apply (BoolVariant.reach_copy ok src dst d1 r IH Hc).
Qed.

(** C10.  On every buffer reachable through the operations, each operation
    of the void-returning variant leaves the state that the boolean-returning
    variant leaves (for copy: the same destination), faults exactly when it
    faults, and returns the same pointer for get; the two variants reach the
    same buffers.  Only the returned [bool] is missing. *)
Theorem variants_leave_the_same_state :
  forall a : DynamicArray,
    BoolVariant.reachable a ->
    (VoidVariant.reachable a <-> BoolVariant.reachable a) /\
    (forall ok es cap,
        VoidVariant.create_dynamic_array ok es cap =
        BoolVariant.create_dynamic_array ok es cap) /\
    (forall ok d,
        VoidVariant.push_dynamic_array ok a d =
        omap fst (BoolVariant.push_dynamic_array ok a d)) /\
    (forall i,
        VoidVariant.get_dynamic_array_element a i =
        BoolVariant.get_dynamic_array_element a i) /\
    VoidVariant.clear_dynamic_array a =
      fst (BoolVariant.clear_dynamic_array a) /\
    VoidVariant.free_dynamic_array a =
      fst (BoolVariant.free_dynamic_array a) /\
    (forall ok n,
        VoidVariant.reserve_dynamic_array ok a n =
        fst (BoolVariant.reserve_dynamic_array ok a n)) /\
    (forall ok,
        VoidVariant.shrink_dynamic_array ok a =
        fst (BoolVariant.shrink_dynamic_array ok a)) /\
    (forall dst,
        VoidVariant.pop_dynamic_array a dst =
        BoolVariant.pop_dynamic_array a dst) /\
    (forall ok dst,
        VoidVariant.copy_dynamic_array ok a dst =
        omap fst (BoolVariant.copy_dynamic_array ok a dst)).
Proof.
  intros a Ha.
  split.
  { split; [ apply void_reachable_is_bool_reachable
           | apply bool_reachable_is_void_reachable ]. }
  split; [ reflexivity | ].
  split; [ intros; apply void_push | ].
  split; [ intros; apply void_get | ].
  split; [ reflexivity | ].
  split; [ apply void_free, reachable_unallocated_is_zeroed, Ha | ].
  split; [ intros; apply void_reserve | ].
  split; [ intros; apply void_shrink | ].
  split; [ reflexivity | ].
  intros; apply void_copy.
Qed.

Lemma variants_leave_the_same_state_witness :
  VoidVariant.free_dynamic_array shrunk_empty_array =
    fst (BoolVariant.free_dynamic_array shrunk_empty_array) /\
  VoidVariant.push_dynamic_array false full_array le30 =
    omap fst (BoolVariant.push_dynamic_array false full_array le30).
Proof.
  assert (R : reachable shrunk_empty_array).
  { apply reach_shrink.
    apply reach_create; unfold SizeT.in_range, SizeT.modulus; lia. }
  assert (R' : reachable full_array).
  { apply (reach_push true
             {| data := Some (le10 ++ fresh 4); count := 1; capacity := 2;
                element_size := 4 |} le20 full_array true);
      [ | reflexivity ].
    apply (reach_push true (create_dynamic_array true 4 2) le10 _ true);
      [ | reflexivity ].
    apply reach_create; unfold SizeT.in_range, SizeT.modulus; lia. }
  destruct (variants_leave_the_same_state shrunk_empty_array R)
    as (_ & _ & _ & _ & _ & Hfree & _).
  destruct (variants_leave_the_same_state full_array R')
    as (_ & _ & Hpush & _).
  split; [ exact Hfree | apply Hpush ].
Defined.

(** ** Reserve *)

Lemma full_array_well_formed : well_formed full_array.
Proof.
  unfold well_formed, SizeT.in_range, SizeT.modulus. simpl.
  unfold blen. simpl. lia.
Qed.

Lemma roomy_array_well_formed : well_formed roomy_array.
Proof.
  unfold well_formed, SizeT.in_range, SizeT.modulus. simpl.
  unfold blen. simpl. lia.
Qed.

(** C8.  A successful Reserve does not always keep the stored elements: a
    request whose size in bytes wraps around is served with a smaller block.
    Reserving [2^62 + 1] elements of 4 bytes in a well-formed buffer of two
    elements asks [realloc] for 4 bytes, reports success, records capacity
    [2^62 + 1] and keeps only the first element. *)
Lemma reserve_with_wrapping_size_loses_elements :
  well_formed full_array /\
  SizeT.in_range wrapping_request /\
  capacity full_array < wrapping_request /\
  SizeT.mul wrapping_request (element_size full_array) = 4 /\
  reserve_dynamic_array true full_array wrapping_request =
    ({| data := Some le10; count := 2; capacity := wrapping_request;
        element_size := 4 |}, true) /\
  stored_elements full_array = le10 ++ le20 /\
  stored_elements
    (fst (reserve_dynamic_array true full_array wrapping_request)) = le10 /\
  stored_elements
    (fst (reserve_dynamic_array true full_array wrapping_request)) <>
  stored_elements full_array.
Proof.
  split; [ exact full_array_well_formed | ].
  split; [ unfold SizeT.in_range, SizeT.modulus, wrapping_request; lia | ].
  split; [ unfold wrapping_request; simpl; lia | ].
  repeat split; try reflexivity.
  discriminate.
Qed.

(** Reserve when the byte size does not wrap.  If [capacity >= n], Reserve
    reports success and changes nothing.  Otherwise, for a buffer that
    satisfies the data-model invariant and a request [n] whose size in bytes
    [n * element_size] fits in [size_t], a served request reports success,
    and every success makes capacity exactly [n], keeps count, element size
    and the bytes of the stored elements, and keeps the invariant.  Reserve
    never lowers capacity. *)
Theorem reserve_grows_to_request :
  forall (ok : bool) (a : DynamicArray) (n : Z),
    (n <= capacity a -> reserve_dynamic_array ok a n = (a, true)) /\
    (well_formed a -> SizeT.in_range n ->
     capacity a < n -> n * element_size a < SizeT.modulus ->
     snd (reserve_dynamic_array true a n) = true /\
     forall a',
       reserve_dynamic_array ok a n = (a', true) ->
       capacity a' = n /\ count a' = count a /\
       element_size a' = element_size a /\
       stored_elements a' = stored_elements a /\
       well_formed a') /\
    capacity a <= capacity (fst (reserve_dynamic_array ok a n)).
Proof.
  intros ok a n.
  split; [ | split ].
  - intros H. unfold reserve_dynamic_array.
    destruct (Z.geb_spec (capacity a) n); [ reflexivity | lia ].
  - intros (Hc & Hcap & Hes & Hle & Hsz & Hd) Hn Hlt Hfit.
    unfold SizeT.in_range in *.
    assert (Hmul : SizeT.mul n (element_size a) = n * element_size a)
      by (apply mul_small; lia).
    unfold reserve_dynamic_array.
    destruct (Z.geb_spec (capacity a) n) as [Hge | _]; [ lia | ].
    cbv zeta. rewrite Hmul.
    split; [ reflexivity | ].
    intros a'. unfold realloc. destruct ok; [ | discriminate ].
    intros H. injection H as <-.
    unfold stored_elements, well_formed, SizeT.in_range. simpl.
    destruct (data a) as [b | ].
    + assert (Hb : 0 <= element_size a * count a <= blen b) by nia.
      repeat split; try lia.
      * apply take_resize; nia.
      * rewrite blen_resize by nia. lia.
    + assert (Hz : count a = 0) by lia.
      rewrite Hz, Z.mul_0_r.
      repeat split; try lia.
      rewrite blen_fresh. nia.
  - unfold reserve_dynamic_array.
    destruct (Z.geb_spec (capacity a) n) as [Hge | Hlt]; [ simpl; lia | ].
    cbv zeta. destruct (realloc ok (data a) _); simpl; lia.
Qed.

Lemma reserve_grows_to_request_witness :
  reserve_dynamic_array true full_array 1 = (full_array, true) /\
  capacity (fst (reserve_dynamic_array true full_array 5)) = 5 /\
  stored_elements (fst (reserve_dynamic_array true full_array 5)) =
    stored_elements full_array.
Proof.
  assert (R5 : SizeT.in_range 5)
    by (unfold SizeT.in_range, SizeT.modulus; lia).
  destruct (reserve_grows_to_request true full_array 1) as (Hsame & _ & _).
  destruct (reserve_grows_to_request true full_array 5) as (_ & Hgrow & _).
  split; [ apply Hsame; simpl; lia | ].
  assert (Hlt : capacity full_array < 5) by (simpl; lia).
  assert (Hfit : 5 * element_size full_array < SizeT.modulus)
    by (unfold SizeT.modulus; simpl; lia).
  destruct (Hgrow full_array_well_formed R5 Hlt Hfit) as (_ & Hall).
  destruct (Hall (fst (reserve_dynamic_array true full_array 5)) eq_refl)
    as (H1 & _ & _ & H2 & _).
  split; [ exact H1 | exact H2 ].
Defined.

(** ** Shrink *)

(** C9.  On a buffer with count 0, Shrink releases the storage, leaves the
    zeroed buffer (no storage, count 0, capacity 0, element size 0), which is
    the state Release leaves on a buffer that owns storage, and reports
    [false].  On a buffer with count > 0 that satisfies the data-model
    invariant, a served request reports success, and every success leaves
    capacity equal to count, with count, element size and the bytes of the
    stored elements as before. *)
Theorem shrink_to_fit :
  forall (ok : bool) (a : DynamicArray),
    (count a = 0 ->
     shrink_dynamic_array ok a = (zeroed, false) /\
     (data a <> None -> free_dynamic_array a = (zeroed, true))) /\
    (well_formed a -> count a <> 0 ->
     snd (shrink_dynamic_array true a) = true /\
     forall a',
       shrink_dynamic_array ok a = (a', true) ->
       capacity a' = count a /\ count a' = count a /\
       element_size a' = element_size a /\
       stored_elements a' = stored_elements a /\
       well_formed a').
Proof.
  intros ok a.
  split.
  - intros Hz. unfold shrink_dynamic_array, free_dynamic_array.
    rewrite Hz. simpl. split.
    + unfold set_element_size, set_capacity, set_data, zeroed. simpl.
      rewrite Hz. reflexivity.
    + destruct (data a) as [b | ]; [ intros _ | congruence ].
      reflexivity.
  - intros (Hc & Hcap & Hes & Hle & Hsz & Hd) Hnz.
    unfold SizeT.in_range in *.
    assert (Hmul : SizeT.mul (element_size a) (count a)
                   = element_size a * count a)
      by (apply mul_small; nia).
    unfold shrink_dynamic_array.
    destruct (Z.eqb_spec (count a) 0) as [E | _]; [ contradiction | ].
    cbv zeta. rewrite Hmul.
    split; [ reflexivity | ].
    intros a'. unfold realloc. destruct ok; [ | discriminate ].
    intros H. injection H as <-.
    unfold stored_elements, well_formed, SizeT.in_range. simpl.
    destruct (data a) as [b | ]; [ | lia ].
    repeat split; try lia; try nia.
    + apply take_resize; nia.
    + rewrite blen_resize by nia. reflexivity.
Qed.

Lemma shrink_to_fit_witness :
  shrink_dynamic_array true (create_dynamic_array true 4 2) =
    (zeroed, false) /\
  capacity (fst (shrink_dynamic_array true roomy_array)) = count roomy_array /\
  stored_elements (fst (shrink_dynamic_array true roomy_array)) =
    stored_elements roomy_array.
Proof.
  destruct (shrink_to_fit true (create_dynamic_array true 4 2))
    as (Hempty & _).
  destruct (shrink_to_fit true roomy_array) as (_ & Hfit).
  split; [ apply Hempty; reflexivity | ].
  assert (Hnz : count roomy_array <> 0) by (simpl; lia).
  destruct (Hfit roomy_array_well_formed Hnz) as (_ & Hall).
  destruct (Hall (fst (shrink_dynamic_array true roomy_array)) eq_refl)
    as (H1 & _ & _ & H2 & _).
  split; [ exact H1 | exact H2 ].
Defined.

(** ** Pop followed by push *)

Lemma pred_small (x : Z) : 1 <= x < SizeT.modulus -> SizeT.pred x = x - 1.
Proof. intros H. unfold SizeT.pred. apply wrap_small. split; lia. Qed.

Lemma succ_small (x : Z) : 0 <= x -> x + 1 < SizeT.modulus -> SizeT.succ x = x + 1.
Proof. intros H1 H2. unfold SizeT.succ. apply wrap_small. split; lia. Qed.

Lemma take_zero (b : block) : take 0 b = [].
Proof. reflexivity. Qed.

Lemma drop_zero (b : block) : drop 0 b = b.
Proof. reflexivity. Qed.

Lemma take_exact_app (n : Z) (b c : block) : blen b = n -> take n (b ++ c) = b.
Proof.
  intros H. rewrite take_app_le by lia. apply take_all. lia.
Qed.

(** C7.  On a non-empty buffer that satisfies the data-model invariant, Pop
    into a destination of at least [element_size] bytes succeeds and lowers
    count by one, and an Append of the popped bytes right after it succeeds
    and gives back the buffer as it was before the Pop: the same count,
    capacity and element size and the same storage bytes. *)
Theorem pop_then_push_restores_buffer :
  forall (ok : bool) (a : DynamicArray) (buf : block),
    well_formed a -> 1 <= count a -> element_size a <= blen buf ->
    exists (a1 : DynamicArray) (buf' : block),
      pop_dynamic_array a (Some buf) = Done (a1, Some buf', true) /\
      count a1 = count a - 1 /\
      push_dynamic_array ok a1 buf' = Done (a, true).
Proof.
  intros ok a buf Hwf Hcount Hbuf.
  destruct Hwf as (Hc & Hcap & Hes & Hle & Hsz & Hd).
  unfold SizeT.in_range in *.
  destruct (data a) as [b | ] eqn:Edata; [ | lia ].
  set (off := element_size a * (count a - 1)).
  set (bytes := take (element_size a) (drop off b)).
  assert (Hoff : 0 <= off) by (unfold off; nia).
  assert (Hin : off + element_size a <= blen b) by (unfold off; nia).
  assert (Hbytes : blen bytes = element_size a).
  { unfold bytes. rewrite blen_take, blen_drop by lia. lia. }
  assert (Hpred : SizeT.pred (count a) = count a - 1)
    by (apply pred_small; lia).
  assert (Hmul1 : SizeT.mul (element_size a) (count a - 1) = off)
    by (apply mul_small; unfold off; nia).
  assert (Hmul2 : SizeT.mul (count a - 1) (element_size a) = off)
    by (rewrite <- Hmul1; unfold SizeT.mul; f_equal; lia).
  exists (set_count a (count a - 1)), (bytes ++ drop (element_size a) buf).
  split; [ | split; [ reflexivity | ] ].
  - unfold pop_dynamic_array.
    destruct (Z.eqb_spec (count a) 0) as [E | _]; [ lia | ].
    cbv zeta. rewrite Hpred. fields. rewrite Edata, Hmul1.
    rewrite load_in_bounds by exact Hin. cbn [bind]. fold bytes.
    rewrite store_in_bounds by (rewrite Hbytes; lia). cbn [bind].
    rewrite Hbytes, take_zero. reflexivity.
  - unfold push_dynamic_array, push_grow. fields.
    destruct (Z.eqb_spec (count a - 1) (capacity a)) as [E | _]; [ lia | ].
    fields. rewrite Edata, Hmul2.
    rewrite load_in_bounds
      by (rewrite blen_app, Hbytes; pose proof (blen_nonneg
            (drop (element_size a) buf)); lia).
    cbn [bind]. rewrite drop_zero, (take_exact_app _ _ _ Hbytes).
    rewrite store_in_bounds by (rewrite Hbytes; exact Hin).
    cbn [bind]. rewrite Hbytes. unfold bytes.
    rewrite splice_same by lia.
    rewrite succ_small by lia.
    replace (count a - 1 + 1) with (count a) by lia.
    destruct a as [p n c e]. simpl in *. subst p. reflexivity.
Qed.

Lemma pop_then_push_restores_buffer_witness :
  exists (a1 : DynamicArray) (buf' : block),
    pop_dynamic_array full_array (Some (fresh 4)) =
      Done (a1, Some buf', true) /\
    count a1 = count full_array - 1 /\
    push_dynamic_array true a1 buf' = Done (full_array, true).
Proof.
  apply (pop_then_push_restores_buffer true full_array (fresh 4)).
  - exact full_array_well_formed.
  - simpl. lia.
  - unfold blen. simpl. lia.
Defined.

(** ** Appending and reading back *)

Lemma drop_app_len (k : Z) (b c : block) :
  0 <= k -> drop (blen b + k) (b ++ c) = drop k c.
Proof.
  intros Hk. unfold drop, blen.
  replace (Z.to_nat (Z.of_nat (length b) + k))
    with (length b + Z.to_nat k)%nat by lia.
  rewrite skipn_app.
  rewrite skipn_all2 by lia.
  replace (length b + Z.to_nat k - length b)%nat with (Z.to_nat k) by lia.
  reflexivity.
Qed.

(** The [i]-th chunk of a concatenation of chunks of equal size. *)
Lemma nth_chunk (es : Z) (vs : list block) (rest : block) :
  0 <= es -> Forall (fun v => blen v = es) vs ->
  forall (i : nat) (v : block),
    nth_error vs i = Some v ->
    take es (drop (es * Z.of_nat i) (concat vs ++ rest)) = v.
Proof.
  intros Hes Hall. induction Hall as [ | v0 vs' Hv0 Hall IH ];
    intros i v Hnth.
  - destruct i; discriminate.
  - destruct i as [ | i' ]; simpl in Hnth.
    + injection Hnth as <-. rewrite Z.mul_0_r, drop_zero.
      simpl. rewrite <- app_assoc. apply take_exact_app. exact Hv0.
    + simpl concat. rewrite <- app_assoc.
      replace (es * Z.of_nat (S i')) with (blen v0 + es * Z.of_nat i') by lia.
      rewrite drop_app_len by lia.
      apply IH. exact Hnth.
Qed.

Lemma concat_blen (es : Z) (vs : list block) :
  Forall (fun v => blen v = es) vs ->
  blen (concat vs) = es * Z.of_nat (length vs).
Proof.
  induction 1 as [ | v vs' Hv Hall IH ]; [ unfold blen; simpl; lia | ].
  simpl concat. rewrite blen_app, IH, Hv. simpl length. lia.
Qed.

Lemma create_holds_nothing (es cap : Z) :
  holds_values es (create_dynamic_array true es cap) [].
Proof.
  unfold holds_values, create_dynamic_array, malloc. simpl.
  split; [ reflexivity | ]. split; [ reflexivity | ].
  eexists. split; [ reflexivity | ].
  rewrite blen_fresh, Z.mul_0_r.
  pose proof (mul_in_range es cap) as R. unfold SizeT.in_range in R.
  repeat split; lia.
Qed.

(** The buffer after the growth step still starts with the bytes it started
    with, as far as the new block reaches. *)
Lemma push_grow_keeps_prefix (ok : bool) (a a1 : DynamicArray) (b : block) :
  data a = Some b -> blen b < SizeT.modulus ->
  push_grow ok a = Some a1 ->
  element_size a1 = element_size a /\ count a1 = count a /\
  exists b1, data a1 = Some b1 /\ blen b1 < SizeT.modulus /\
             forall k, 0 <= k <= blen b1 -> k <= blen b ->
                       take k b1 = take k b.
Proof.
  intros Hd Hb. unfold push_grow.
  destruct (count a =? capacity a).
  - cbv zeta. unfold realloc. destruct ok; [ | discriminate ].
    rewrite Hd. intros H. injection H as <-. fields.
    split; [ reflexivity | ]. split; [ reflexivity | ].
    pose proof (mul_in_range (element_size a) (push_new_capacity a)) as R.
    unfold SizeT.in_range in R.
    eexists. split; [ reflexivity | ].
    rewrite blen_resize by lia.
    split; [ lia | ].
    intros k Hk1 Hk2. apply take_resize; lia.
  - intros H. injection H as <-.
    split; [ reflexivity | ]. split; [ reflexivity | ].
    exists b. auto.
Qed.

Lemma push_appends_value (es : Z) (ok : bool) (a a' : DynamicArray)
    (vs : list block) (v : block) :
  0 < es -> blen v = es ->
  holds_values es a vs ->
  push_dynamic_array ok a v = Done (a', true) ->
  holds_values es a' (vs ++ [v]).
Proof.
  intros Hes Hv (He & Hc & b & Hd & Hb & Hfit & Hpre) Hpush.
  apply push_reports_success in Hpush.
  destruct Hpush as (a1 & bytes & b' & Hgrow & Hload & Hstore & ->).
  destruct (push_grow_keeps_prefix ok a a1 b Hd Hb Hgrow)
    as (He1 & Hc1 & b1 & Hd1 & Hb1 & Hkeep).
  rewrite He1, He in Hload. rewrite He1, Hc1, He, Hd1 in Hstore.
  rewrite load_in_bounds in Hload by lia.
  injection Hload as <-.
  rewrite drop_zero, take_all in Hstore by lia.
  assert (Hoff : SizeT.mul (count a) es = es * count a).
  { rewrite Z.mul_comm. apply mul_small; lia. }
  rewrite Hoff in Hstore.
  apply store_done in Hstore.
  destruct Hstore as (b1' & Eb1 & Hin & ->). injection Eb1 as <-.
  rewrite Hv in Hin |- *.
  assert (Hn : 0 <= count a) by lia.
  assert (Hsucc : SizeT.succ (count a) = count a + 1)
    by (apply succ_small; nia).
  unfold holds_values. fields. rewrite He1, Hc1, Hsucc.
  split; [ exact He | ].
  split; [ rewrite length_app; simpl; lia | ].
  assert (Htake : blen (take (es * count a) b1) = es * count a)
    by (rewrite blen_take by nia; nia).
  eexists. split; [ reflexivity | ].
  rewrite !blen_app, Htake, blen_drop, Hv by nia.
  split; [ lia | ]. split; [ lia | ].
  replace (es * (count a + 1)) with (blen (take (es * count a) b1 ++ v))
    by (rewrite blen_app, Htake, Hv; lia).
  rewrite app_assoc, take_exact_app by reflexivity.
  rewrite Hkeep by nia.
  rewrite Hpre, concat_app. simpl. rewrite app_nil_r. reflexivity.
Qed.

Lemma push_all_appends_values (es : Z) (vs : list block) :
  0 < es -> Forall (fun v => blen v = es) vs ->
  forall (oks : list bool) (a a' : DynamicArray) (vs0 : list block),
    holds_values es a vs0 ->
    push_all oks a vs = Some a' ->
    holds_values es a' (vs0 ++ vs).
Proof.
  intros Hes Hall. induction Hall as [ | v vs' Hv Hall IH ];
    intros oks a a' vs0 Hholds Hpush.
  - destruct oks; simpl in Hpush; injection Hpush as <-;
      rewrite app_nil_r; exact Hholds.
  - destruct oks as [ | ok oks' ]; [ discriminate | ].
    simpl in Hpush.
    destruct (push_dynamic_array ok a v) as [[a1 r] | ] eqn:Hp;
      [ | discriminate ].
    destruct r; [ | discriminate ].
    replace (vs0 ++ v :: vs') with ((vs0 ++ [v]) ++ vs')
      by (rewrite <- app_assoc; reflexivity).
    apply (IH oks' a1 a' (vs0 ++ [v])); [ | exact Hpush ].
    apply (push_appends_value es ok a a1 vs0 v Hes Hv Hholds Hp).
Qed.

Lemma held_value_is_read_back (es : Z) (a : DynamicArray) (vs : list block) :
  0 < es -> Forall (fun v => blen v = es) vs ->
  holds_values es a vs ->
  forall (i : nat) (v : block),
    nth_error vs i = Some v ->
    read_element a (get_dynamic_array_element a (Z.of_nat i)) = Done v.
Proof.
  intros Hes Hall (He & Hc & b & Hd & Hb & Hfit & Hpre) i v Hnth.
  assert (Hi : (i < length vs)%nat)
    by (apply nth_error_Some; congruence).
  unfold get_dynamic_array_element.
  destruct (Z.geb_spec (Z.of_nat i) (count a)) as [Hge | _]; [ lia | ].
  rewrite He, mul_small by nia.
  unfold read_element. rewrite Hd, He.
  rewrite load_in_bounds by nia.
  rewrite <- (take_drop_id (es * count a) b), Hpre.
  f_equal. apply nth_chunk; [ lia | exact Hall | exact Hnth ].
Qed.

(** A served push on a buffer that satisfies the data-model invariant, has
    capacity at least 1 and can double without wrap-around succeeds, and the
    buffer after it satisfies the invariant again. *)
Lemma served_push_succeeds (a : DynamicArray) (v : block) :
  well_formed a -> 0 < capacity a ->
  element_size a * (2 * capacity a) < SizeT.modulus ->
  2 * capacity a < SizeT.modulus ->
  element_size a <= blen v ->
  exists a', push_dynamic_array true a v = Done (a', true) /\
             count a' = count a + 1 /\ well_formed a'.
Proof.
  intros (Hc & Hcap & Hes & Hle & Hsz & Hd) Hpos Hdbl Hdbl' Hv.
  unfold SizeT.in_range in *.
  destruct (data a) as [b | ] eqn:Edata; [ | lia ].
  assert (Hgrow : exists a1 b1,
             push_grow true a = Some a1 /\ data a1 = Some b1 /\
             element_size a1 = element_size a /\ count a1 = count a /\
             count a < capacity a1 < SizeT.modulus /\
             element_size a * capacity a1 < SizeT.modulus /\
             blen b1 = element_size a * capacity a1).
  { unfold push_grow, push_new_capacity.
    destruct (Z.eqb_spec (count a) (capacity a)) as [E | E].
    - cbv zeta. unfold realloc. rewrite Edata. do 2 eexists.
      split; [ reflexivity | ]. fields.
      rewrite (mul_small (capacity a) 2) by lia.
      rewrite mul_small by nia.
      split; [ reflexivity | ]. rewrite blen_resize by nia.
      repeat split; lia.
    - exists a, b. repeat split; try assumption; lia. }
  destruct Hgrow as (a1 & b1 & Hg & Hd1 & He1 & Hc1 & Hroom & Hsz1 & Hb1).
  unfold push_dynamic_array. rewrite Hg, He1, Hc1, Hd1.
  rewrite load_in_bounds by lia. cbn [bind]. rewrite drop_zero.
  assert (Hbytes : blen (take (element_size a) v) = element_size a)
    by (rewrite blen_take by lia; lia).
  rewrite (mul_small (count a) (element_size a)) by nia.
  rewrite store_in_bounds by (rewrite Hbytes; nia). cbn [bind].
  eexists. split; [ reflexivity | ].
  rewrite succ_small by lia.
  split; [ reflexivity | ].
  unfold well_formed, SizeT.in_range. fields. rewrite He1.
  repeat split; try lia.
  rewrite !blen_app, Hbytes, blen_take, blen_drop by nia. nia.
Qed.

(** Appending to a buffer whose construction was served.  Construct a
    buffer, the allocation being served, for elements of more than 0 bytes
    (so that the buffer records a positive element size) and append,
    successfully, the values [vs], each of that many bytes.  Then Get at
    every index [i < N] returns a pointer at which the bytes of the [i]-th
    appended value are read, and Get at index [N] returns [NULL]. *)
Theorem appended_values_are_read_back_in_order :
  forall (ok : bool) (es cap : Z) (oks : list bool) (vs : list block)
         (a : DynamicArray),
    0 < element_size (create_dynamic_array ok es cap) ->
    Forall (fun v => blen v = element_size (create_dynamic_array ok es cap))
           vs ->
    push_all oks (create_dynamic_array ok es cap) vs = Some a ->
    (forall (i : nat) (v : block),
        nth_error vs i = Some v ->
        read_element a (get_dynamic_array_element a (Z.of_nat i)) = Done v) /\
    get_dynamic_array_element a (Z.of_nat (length vs)) = NullPtr.
Proof.
  intros ok es cap oks vs a Hes Hall Hpush.
  destruct ok; [ | simpl in Hes; lia ].
  change (element_size (create_dynamic_array true es cap)) with es in *.
  assert (Hholds : holds_values es a vs).
  { apply (push_all_appends_values es vs Hes Hall oks
             (create_dynamic_array true es cap) a []
             (create_holds_nothing es cap) Hpush). }
  split.
  - apply (held_value_is_read_back es a vs Hes Hall Hholds).
  - destruct Hholds as (_ & Hc & _).
    unfold get_dynamic_array_element.
    destruct (Z.geb_spec (Z.of_nat (length vs)) (count a));
      [ reflexivity | lia ].
Qed.

Lemma appended_values_are_read_back_in_order_witness :
  let a := {| data := Some (le10 ++ le20 ++ le30 ++ fresh 4); count := 3;
              capacity := 4; element_size := 4 |} in
  push_all [true; true; true] (create_dynamic_array true 4 2)
    [le10; le20; le30] = Some a /\
  read_element a (get_dynamic_array_element a 0) = Done le10 /\
  read_element a (get_dynamic_array_element a 1) = Done le20 /\
  read_element a (get_dynamic_array_element a 2) = Done le30 /\
  get_dynamic_array_element a 3 = NullPtr.
Proof.
  intros a.
  assert (Hpush : push_all [true; true; true] (create_dynamic_array true 4 2)
                    [le10; le20; le30] = Some a) by reflexivity.
  assert (Hes : 0 < element_size (create_dynamic_array true 4 2))
    by (simpl; lia).
  assert (Hall : Forall
                   (fun v => blen v =
                             element_size (create_dynamic_array true 4 2))
                   [le10; le20; le30])
    by (repeat constructor).
  destruct (appended_values_are_read_back_in_order true 4 2
              [true; true; true] [le10; le20; le30] a Hes Hall Hpush)
    as (Hread & Hnull).
  split; [ exact Hpush | ].
  split; [ apply (Hread 0%nat le10 eq_refl) | ].
  split; [ apply (Hread 1%nat le20 eq_refl) | ].
  split; [ apply (Hread 2%nat le30 eq_refl) | ].
  exact Hnull.
Defined.

(** C6.  Appended values are not always read back.  When the allocation of
    [create_dynamic_array(4, 2)] is refused the buffer is zeroed, element
    size included.  The first push then grows from capacity 0 to capacity 0
    and, like the two after it, copies [element_size = 0] bytes and reports
    success.  Get at index 0 returns an address into a block of 0 bytes, at
    which none of the appended bytes can be read. *)
Theorem pushes_after_refused_create_store_nothing :
  create_dynamic_array false 4 2 = zeroed /\
  push_all [true; true; true] (create_dynamic_array false 4 2)
    [le10; le20; le30] = Some pushed_after_refused_create /\
  get_dynamic_array_element pushed_after_refused_create 0 = InData 0 /\
  read_element pushed_after_refused_create
    (get_dynamic_array_element pushed_after_refused_create 0) = Done [] /\
  read_element pushed_after_refused_create
    (get_dynamic_array_element pushed_after_refused_create 0) <> Done le10 /\
  stored_elements pushed_after_refused_create = [] /\
  data pushed_after_refused_create = Some [].
Proof.
  repeat split; try reflexivity.
  discriminate.
Qed.

(** ** Where [count <= capacity] is kept *)

(** Every operation other than a growing push keeps [count <= capacity], and
    so does a push whose doubled capacity is neither 0 nor wrapped. *)
Lemma count_le_capacity_kept (a : DynamicArray) :
  0 <= count a <= capacity a ->
  (forall ok es cap,
      0 <= cap ->
      count (create_dynamic_array ok es cap) <=
      capacity (create_dynamic_array ok es cap)) /\
  (forall ok d a' r,
      0 < capacity a -> 2 * capacity a < SizeT.modulus ->
      push_dynamic_array ok a d = Done (a', r) -> count a' <= capacity a') /\
  count (fst (clear_dynamic_array a)) <= capacity (fst (clear_dynamic_array a)) /\
  count (fst (free_dynamic_array a)) <= capacity (fst (free_dynamic_array a)) /\
  (forall ok n,
      count (fst (reserve_dynamic_array ok a n)) <=
      capacity (fst (reserve_dynamic_array ok a n))) /\
  (forall ok,
      count (fst (shrink_dynamic_array ok a)) <=
      capacity (fst (shrink_dynamic_array ok a))) /\
  (forall dst a' dst' r,
      count a < SizeT.modulus ->
      pop_dynamic_array a dst = Done (a', dst', r) ->
      count a' <= capacity a') /\
  (forall ok dst dst' r,
      copy_dynamic_array ok a dst = Done (dst', r) ->
      count dst' <= capacity dst').
Proof.
  intros Hinv.
  split; [ | split; [ | split; [ | split; [ | split; [ | split; [ | split ]]]]]].
  - intros ok es cap Hcap. unfold create_dynamic_array, malloc.
    destruct ok; simpl; lia.
  - intros ok d a' r Hpos Hdbl Hpush. destruct r.
    + apply push_reports_success in Hpush.
      destruct Hpush as (a1 & bytes & b & Hgrow & _ & _ & ->). fields.
      assert (Hroom : 0 <= count a1 < capacity a1).
      { revert Hgrow. unfold push_grow, push_new_capacity.
        destruct (Z.eqb_spec (count a) (capacity a)) as [E | E].
        - cbv zeta. destruct (realloc ok (data a) _); [ | discriminate ].
          intros H. injection H as <-. fields.
          rewrite mul_small by lia. lia.
        - intros H. injection H as <-. lia. }
      unfold SizeT.succ, SizeT.wrap.
      pose proof (Z.mod_le (count a1 + 1) SizeT.modulus) as Hmod.
      pose proof modulus_pos. lia.
    + apply push_reports_failure in Hpush. destruct Hpush as [_ ->].
      simpl. lia.
  - simpl. lia.
  - unfold free_dynamic_array. destruct (data a); simpl; lia.
  - intros ok n. unfold reserve_dynamic_array.
    destruct (Z.geb_spec (capacity a) n); [ simpl; lia | ].
    cbv zeta. destruct (realloc ok (data a) _); simpl; lia.
  - intros ok. unfold shrink_dynamic_array.
    destruct (Z.eqb_spec (count a) 0); [ simpl; lia | ].
    cbv zeta. destruct (realloc ok (data a) _); simpl; lia.
  - intros dst a' dst' r Hrange Hpop. apply pop_done in Hpop.
    destruct Hpop as [(_ & -> & _) | (Hnz & -> & _)]; [ lia | ].
    fields. rewrite pred_small by lia. lia.
  - intros ok dst dst' r. unfold copy_dynamic_array, malloc. cbv zeta.
    destruct ok.
    + destruct (data a) as [sb | ].
      * do 2 split_access. intros H. injection H as <- _. simpl. lia.
      * intros H. injection H as <- _. simpl. lia.
    + intros H. injection H as <- _. simpl. lia.
Qed.

(** * Further properties of the operations *)

(** ** Slices of blocks *)

Lemma take_drop_comm (off m : Z) (b : block) :
  0 <= off -> 0 <= m -> take m (drop off b) = drop off (take (off + m) b).
Proof.
  intros Hoff Hm. unfold take, drop.
  rewrite firstn_skipn_comm. do 2 f_equal. lia.
Qed.

(** A slice that lies inside the first [n] cells only depends on them. *)
Lemma slice_of_prefix (off m n : Z) (b : block) :
  0 <= off -> 0 <= m -> off + m <= n ->
  take m (drop off (take n b)) = take m (drop off b).
Proof.
  intros Hoff Hm Hn.
  rewrite !take_drop_comm by lia. rewrite take_take by lia. reflexivity.
Qed.

Lemma slice_after_prefix (n m : Z) (b x y : block) :
  blen x = n -> blen y = m -> take (n + m) b = x ++ y ->
  take m (drop n b) = y.
Proof.
  intros Hx Hy Hb.
  pose proof (blen_nonneg x). pose proof (blen_nonneg y).
  rewrite take_drop_comm by lia. rewrite Hb.
  replace n with (blen x + 0) by lia.
  rewrite drop_app_len by lia. apply drop_zero.
Qed.

Lemma app_same_length (x x' y y' : block) :
  x ++ y = x' ++ y' -> blen y = blen y' -> x = x' /\ y = y'.
Proof.
  intros H Hl.
  assert (Hx : blen x = blen x').
  { pose proof (f_equal blen H) as E. rewrite !blen_app in E. lia. }
  assert (E : x = x').
  { rewrite <- (take_exact_app (blen x) x y eq_refl), H.
    apply take_exact_app. lia. }
  subst x'. split; [ reflexivity | ].
  apply (app_inv_head x). exact H.
Qed.

Lemma well_formed_storage (a : DynamicArray) :
  well_formed a -> 0 < capacity a ->
  exists b, data a = Some b /\ blen b = element_size a * capacity a.
Proof.
  intros (_ & _ & _ & _ & _ & Hd) Hpos.
  destruct (data a) as [b | ]; [ eauto | lia ].
Qed.

Lemma take_split (off m : Z) (b : block) :
  0 <= off -> 0 <= m ->
  take (off + m) b = take off b ++ take m (drop off b).
Proof.
  intros Hoff Hm.
  rewrite <- (take_drop_id off (take (off + m) b)).
  rewrite take_take by lia. rewrite take_drop_comm by lia. reflexivity.
Qed.

(** ** Construction and the data-model invariant *)

(** A served [create_dynamic_array] returns a buffer that satisfies the
    data-model invariant exactly when [element_size * capacity] fits in
    [size_t]: the byte size is computed with wrap-around and not checked.  A
    refused one always returns the (well-formed) zeroed buffer. *)
Theorem create_well_formed_iff_size_fits :
  forall (es cap : Z),
    SizeT.in_range es -> SizeT.in_range cap ->
    (well_formed (create_dynamic_array true es cap) <->
     es * cap < SizeT.modulus) /\
    well_formed (create_dynamic_array false es cap).
Proof.
  intros es cap Hes Hcap. unfold SizeT.in_range in *.
  split; [ split | ].
  - intros (_ & _ & _ & _ & H & _). exact H.
  - intros Hfit. unfold well_formed, SizeT.in_range, create_dynamic_array,
      malloc. simpl.
    rewrite blen_fresh, mul_small by lia.
    repeat split; try lia; nia.
  - unfold well_formed, SizeT.in_range, SizeT.modulus. simpl. lia.
Qed.

Lemma create_well_formed_iff_size_fits_witness :
  well_formed (create_dynamic_array true 4 2) /\
  ~ well_formed (create_dynamic_array true 4 wrapping_request).
Proof.
  assert (R4 : SizeT.in_range 4)
    by (unfold SizeT.in_range, SizeT.modulus; lia).
  assert (R2 : SizeT.in_range 2)
    by (unfold SizeT.in_range, SizeT.modulus; lia).
  assert (Rw : SizeT.in_range wrapping_request)
    by (unfold SizeT.in_range, SizeT.modulus, wrapping_request; lia).
  split.
  - apply (create_well_formed_iff_size_fits 4 2 R4 R2).
    unfold SizeT.modulus. lia.
  - intros H.
    apply (create_well_formed_iff_size_fits 4 wrapping_request R4 Rw) in H.
    unfold SizeT.modulus, wrapping_request in H. lia.
Defined.

(** ** Get *)

(** What Get returns on a well-formed buffer. *)
Lemma get_effect :
  forall (a : DynamicArray) (i : Z),
    well_formed a -> 0 <= i ->
    (count a <= i -> get_dynamic_array_element a i = NullPtr) /\
    (i < count a ->
     get_dynamic_array_element a i = InData (element_size a * i) /\
     read_element a (get_dynamic_array_element a i) =
       Done (take (element_size a)
               (drop (element_size a * i) (stored_elements a)))).
Proof.
  intros a i Hwf Hi.
  unfold get_dynamic_array_element.
  destruct (Z.geb_spec i (count a)) as [Hge | Hlt].
  - split; [ reflexivity | lia ].
  - split; [ lia | intros _ ].
    destruct Hwf as (Hc & Hcap & Hes & Hle & Hsz & Hd).
    unfold SizeT.in_range in *.
    rewrite mul_small by nia.
    split; [ reflexivity | ].
    unfold read_element, stored_elements.
    destruct (data a) as [b | ]; [ | lia ].
    rewrite load_in_bounds by nia.
    rewrite slice_of_prefix by nia. reflexivity.
Qed.

(** On a buffer that satisfies the data-model invariant,
    [get_dynamic_array_element] returns [NULL] for every index at or past
    [count], and for an index below [count] the address at offset
    [element_size * i], at which [element_size] bytes can be read: the
    [i]-th slice of the stored elements. *)
Theorem get_is_null_or_in_bounds :
  forall (a : DynamicArray) (i : Z),
    well_formed a -> 0 <= i ->
    (count a <= i -> get_dynamic_array_element a i = NullPtr) /\
    (i < count a ->
     get_dynamic_array_element a i = InData (element_size a * i) /\
     read_element a (get_dynamic_array_element a i) =
       Done (take (element_size a)
               (drop (element_size a * i) (stored_elements a)))).
Proof. exact get_effect. Qed.

Lemma get_is_null_or_in_bounds_witness :
  get_dynamic_array_element roomy_array 2 = NullPtr /\
  read_element roomy_array (get_dynamic_array_element roomy_array 1) =
    Done le20.
Proof.
  assert (H0 : 0 <= 2) by lia.
  assert (H1 : 0 <= 1) by lia.
  destruct (get_is_null_or_in_bounds roomy_array 2 roomy_array_well_formed H0)
    as (Hnull & _).
  destruct (get_is_null_or_in_bounds roomy_array 1 roomy_array_well_formed H1)
    as (_ & Hread).
  split; [ apply Hnull; simpl; lia | ].
  assert (Hlt : 1 < count roomy_array) by (simpl; lia).
  destruct (Hread Hlt) as (_ & Hbytes).
  rewrite Hbytes. reflexivity.
Defined.

(** ** Pop *)

(** What a pop does to a well-formed, non-empty buffer. *)
Lemma pop_effect :
  forall (a : DynamicArray) (buf : block),
    well_formed a -> 1 <= count a -> element_size a <= blen buf ->
    exists bytes : block,
      blen bytes = element_size a /\
      read_element a (get_dynamic_array_element a (count a - 1)) =
        Done bytes /\
      pop_dynamic_array a (Some buf) =
        Done (set_count a (count a - 1),
              Some (bytes ++ drop (element_size a) buf), true) /\
      pop_dynamic_array a None =
        Done (set_count a (count a - 1), None, true) /\
      stored_elements a = stored_elements (set_count a (count a - 1)) ++ bytes /\
      get_dynamic_array_element (set_count a (count a - 1)) (count a - 1) =
        NullPtr /\
      well_formed (set_count a (count a - 1)).
Proof.
  intros a buf Hwf Hcount Hbuf.
  destruct Hwf as (Hc & Hcap & Hes & Hle & Hsz & Hd).
  unfold SizeT.in_range in *.
  destruct (data a) as [b | ] eqn:Edata; [ | lia ].
  set (off := element_size a * (count a - 1)).
  assert (Hoff : 0 <= off) by (unfold off; nia).
  assert (Hin : off + element_size a <= blen b) by (unfold off; nia).
  assert (Hbytes : blen (take (element_size a) (drop off b)) = element_size a).
  { rewrite blen_take, blen_drop by lia. lia. }
  assert (Hpred : SizeT.pred (count a) = count a - 1)
    by (apply pred_small; lia).
  assert (Hmul : SizeT.mul (element_size a) (count a - 1) = off)
    by (apply mul_small; unfold off; nia).
  exists (take (element_size a) (drop off b)).
  split; [ exact Hbytes | ].
  split; [ | split; [ | split; [ | split; [ | split ] ] ] ].
  - unfold get_dynamic_array_element, read_element.
    destruct (Z.geb_spec (count a - 1) (count a)); [ lia | ].
    rewrite Hmul, Edata. apply load_in_bounds. exact Hin.
  - unfold pop_dynamic_array.
    destruct (Z.eqb_spec (count a) 0) as [E | _]; [ lia | ].
    cbv zeta. rewrite Hpred. fields. rewrite Edata, Hmul.
    rewrite load_in_bounds by exact Hin. cbn [bind].
    rewrite store_in_bounds by (rewrite Hbytes; lia). cbn [bind].
    rewrite Hbytes, take_zero. reflexivity.
  - unfold pop_dynamic_array.
    destruct (Z.eqb_spec (count a) 0) as [E | _]; [ lia | ].
    cbv zeta. rewrite Hpred. reflexivity.
  - unfold stored_elements. fields. rewrite Edata. fold off.
    replace (element_size a * count a) with (off + element_size a)
      by (unfold off; lia).
    apply take_split; lia.
  - unfold get_dynamic_array_element. fields.
    destruct (Z.geb_spec (count a - 1) (count a - 1)); [ reflexivity | lia ].
  - unfold well_formed, SizeT.in_range. fields. rewrite Edata.
    repeat split; lia.
Qed.

(** On a non-empty buffer that satisfies the data-model invariant, Pop
    succeeds, hands out exactly the bytes that Get read at index
    [count - 1] (leaving the rest of the destination as it was), only lowers
    [count] by one (storage, capacity and element size are untouched), keeps
    the elements below, makes index [count - 1] absent and keeps the
    invariant.  With a [NULL] destination the buffer changes the same way. *)
Theorem pop_hands_out_last_element :
  forall (a : DynamicArray) (buf : block),
    well_formed a -> 1 <= count a -> element_size a <= blen buf ->
    exists bytes : block,
      read_element a (get_dynamic_array_element a (count a - 1)) =
        Done bytes /\
      pop_dynamic_array a (Some buf) =
        Done (set_count a (count a - 1),
              Some (bytes ++ drop (element_size a) buf), true) /\
      pop_dynamic_array a None =
        Done (set_count a (count a - 1), None, true) /\
      stored_elements a = stored_elements (set_count a (count a - 1)) ++ bytes /\
      get_dynamic_array_element (set_count a (count a - 1)) (count a - 1) =
        NullPtr /\
      well_formed (set_count a (count a - 1)).
Proof.
  intros a buf Hwf Hcount Hbuf.
  destruct (pop_effect a buf Hwf Hcount Hbuf) as (bytes & _ & H).
  exists bytes. exact H.
Qed.

Lemma pop_hands_out_last_element_witness :
  exists bytes : block,
    read_element full_array
      (get_dynamic_array_element full_array (count full_array - 1)) =
      Done bytes /\
    pop_dynamic_array full_array (Some (fresh 4)) =
      Done (set_count full_array (count full_array - 1),
            Some (bytes ++ drop (element_size full_array) (fresh 4)), true) /\
    bytes = le20.
Proof.
  assert (Hc : 1 <= count full_array) by (simpl; lia).
  assert (Hb : element_size full_array <= blen (fresh 4))
    by (unfold blen; simpl; lia).
  destruct (pop_hands_out_last_element full_array (fresh 4)
              full_array_well_formed Hc Hb)
    as (bytes & Hread & Hpop & _).
  exists bytes. split; [ exact Hread | ]. split; [ exact Hpop | ].
  assert (E : Done bytes = Done le20) by (rewrite <- Hread; reflexivity).
  injection E as E. exact E.
Defined.

(** ** Push *)

(** The copy step of a push into a buffer that has room. *)
Lemma append_in_place (g : DynamicArray) (v : block) :
  well_formed g -> count g < capacity g -> element_size g <= blen v ->
  exists b' : block,
    (bytes <- load (Some v) 0 (element_size g) ;;
     b <- store (data g) (SizeT.mul (count g) (element_size g)) bytes ;;
     Done (set_count (set_data g (Some b)) (SizeT.succ (count g)), true)) =
    Done (set_count (set_data g (Some b')) (count g + 1), true) /\
    well_formed (set_count (set_data g (Some b')) (count g + 1)) /\
    stored_elements (set_count (set_data g (Some b')) (count g + 1)) =
      stored_elements g ++ take (element_size g) v.
Proof.
  intros (Hc & Hcap & Hes & Hle & Hsz & Hd) Hroom Hv.
  unfold SizeT.in_range in *.
  destruct (data g) as [b | ] eqn:Edata; [ | lia ].
  set (off := element_size g * count g).
  set (bytes := take (element_size g) v).
  assert (Hbytes : blen bytes = element_size g)
    by (unfold bytes; rewrite blen_take by lia; lia).
  assert (Hoff : 0 <= off) by (unfold off; nia).
  assert (Hin : off + element_size g <= blen b) by (unfold off; nia).
  assert (Hprefix : blen (take off b) = off)
    by (rewrite blen_take by lia; lia).
  exists (take off b ++ bytes ++ drop (off + element_size g) b).
  rewrite load_in_bounds by lia. cbn [bind]. rewrite drop_zero. fold bytes.
  rewrite (mul_small (count g) (element_size g)) by nia.
  replace (count g * element_size g) with off by (unfold off; lia).
  rewrite store_in_bounds by (rewrite Hbytes; exact Hin). cbn [bind].
  rewrite Hbytes, succ_small by lia.
  split; [ reflexivity | ].
  split.
  - unfold well_formed, SizeT.in_range. fields.
    repeat split; try lia.
    rewrite !blen_app, Hprefix, Hbytes, blen_drop by lia. lia.
  - unfold stored_elements. fields. rewrite Edata. fold off.
    replace (element_size g * (count g + 1))
      with (blen (take off b ++ bytes))
      by (rewrite blen_app, Hprefix, Hbytes; unfold off; lia).
    rewrite app_assoc. apply take_exact_app. reflexivity.
Qed.

(** A push into a buffer with room does not consult the allocator. *)
Lemma push_with_room (a : DynamicArray) (v : block) :
  well_formed a -> count a < capacity a -> element_size a <= blen v ->
  exists a' : DynamicArray,
    (forall ok, push_dynamic_array ok a v = Done (a', true)) /\
    count a' = count a + 1 /\ capacity a' = capacity a /\
    element_size a' = element_size a /\
    stored_elements a' = stored_elements a ++ take (element_size a) v /\
    well_formed a'.
Proof.
  intros Hwf Hroom Hv.
  destruct (append_in_place a v Hwf Hroom Hv) as (b' & Hstep & Hwf' & Hel).
  exists (set_count (set_data a (Some b')) (count a + 1)).
  split; [ | auto ].
  intros ok. unfold push_dynamic_array, push_grow.
  destruct (Z.eqb_spec (count a) (capacity a)) as [E | _]; [ lia | ].
  exact Hstep.
Qed.

(** The growth step on a full buffer whose doubled size fits. *)
Lemma push_grow_doubles (a : DynamicArray) :
  well_formed a -> count a = capacity a -> 0 < capacity a ->
  2 * capacity a < SizeT.modulus ->
  element_size a * (2 * capacity a) < SizeT.modulus ->
  exists g : DynamicArray,
    push_grow true a = Some g /\
    well_formed g /\ count g = count a /\ capacity g = 2 * capacity a /\
    element_size g = element_size a /\
    stored_elements g = stored_elements a.
Proof.
  intros (Hc & Hcap & Hes & Hle & Hsz & Hd) Hfull Hpos Hdbl Hfit.
  unfold SizeT.in_range in *.
  destruct (data a) as [b | ] eqn:Edata; [ | lia ].
  unfold push_grow, push_new_capacity.
  destruct (Z.eqb_spec (count a) (capacity a)) as [_ | E]; [ | lia ].
  cbv zeta. unfold realloc. rewrite Edata.
  rewrite (mul_small (capacity a) 2) by lia.
  rewrite mul_small by nia.
  eexists. split; [ reflexivity | ].
  unfold well_formed, stored_elements, SizeT.in_range. fields.
  rewrite blen_resize, Edata by nia.
  repeat split; try lia.
  apply take_resize; nia.
Qed.

(** What a successful push does to a well-formed buffer. *)
Lemma push_effect :
  forall (ok : bool) (a : DynamicArray) (v : block),
    well_formed a -> 0 < capacity a ->
    2 * capacity a < SizeT.modulus ->
    element_size a * (2 * capacity a) < SizeT.modulus ->
    element_size a <= blen v ->
    ok = true \/ count a < capacity a ->
    exists a' : DynamicArray,
      push_dynamic_array ok a v = Done (a', true) /\
      count a' = count a + 1 /\
      capacity a' =
        (if count a =? capacity a then 2 * capacity a else capacity a) /\
      element_size a' = element_size a /\
      stored_elements a' = stored_elements a ++ take (element_size a) v /\
      well_formed a'.
Proof.
  intros ok a v Hwf Hpos Hdbl Hfit Hv Hok.
  destruct (Z.eqb_spec (count a) (capacity a)) as [Hfull | Hroom].
  - destruct Hok as [-> | Hlt]; [ | lia ].
    destruct (push_grow_doubles a Hwf Hfull Hpos Hdbl Hfit)
      as (g & Hg & Hwfg & Hcg & Hcapg & Heg & Hsg).
    assert (Hroomg : count g < capacity g) by lia.
    assert (Hvg : element_size g <= blen v) by lia.
    destruct (append_in_place g v Hwfg Hroomg Hvg) as (b' & Hstep & Hwf' & Hel).
    exists (set_count (set_data g (Some b')) (count g + 1)).
    split; [ unfold push_dynamic_array; rewrite Hg; exact Hstep | ].
    fields. rewrite Hel, Hsg, Heg, Hcapg. rewrite Hcg in Hwf' |- *. auto.
  - assert (Hlt : count a < capacity a)
      by (destruct Hwf as (_ & _ & _ & Hle & _); lia).
    destruct (push_with_room a v Hwf Hlt Hv)
      as (a' & Hpush & Hc' & Hcap' & He' & Hs' & Hwf').
    exists a'. split; [ apply Hpush | auto ].
Qed.

(** A served push on a buffer that satisfies the data-model invariant, with
    capacity at least 1 and a doubled size that fits in [size_t], succeeds:
    it adds the first [element_size] bytes of the caller's buffer after the
    stored elements, raises [count] by one, keeps the element size, and
    leaves the capacity alone when there was room and exactly doubles it when
    the buffer was full.  With room the push succeeds even when the allocator
    would refuse. *)
Theorem push_appends_and_doubles_when_full :
  forall (ok : bool) (a : DynamicArray) (v : block),
    well_formed a -> 0 < capacity a ->
    2 * capacity a < SizeT.modulus ->
    element_size a * (2 * capacity a) < SizeT.modulus ->
    element_size a <= blen v ->
    ok = true \/ count a < capacity a ->
    exists a' : DynamicArray,
      push_dynamic_array ok a v = Done (a', true) /\
      count a' = count a + 1 /\
      capacity a' =
        (if count a =? capacity a then 2 * capacity a else capacity a) /\
      element_size a' = element_size a /\
      stored_elements a' = stored_elements a ++ take (element_size a) v /\
      well_formed a'.
Proof. exact push_effect. Qed.

Lemma push_appends_and_doubles_when_full_witness :
  exists a' : DynamicArray,
    push_dynamic_array true full_array le30 = Done (a', true) /\
    capacity a' = 4 /\
    stored_elements a' = le10 ++ le20 ++ le30.
Proof.
  assert (H1 : 0 < capacity full_array) by (simpl; lia).
  assert (H2 : 2 * capacity full_array < SizeT.modulus)
    by (unfold SizeT.modulus; simpl; lia).
  assert (H3 : element_size full_array * (2 * capacity full_array)
               < SizeT.modulus)
    by (unfold SizeT.modulus; simpl; lia).
  assert (H4 : element_size full_array <= blen le30)
    by (unfold blen; simpl; lia).
  destruct (push_appends_and_doubles_when_full true full_array le30
              full_array_well_formed H1 H2 H3 H4 (or_introl eq_refl))
    as (a' & Hpush & _ & Hcap & _ & Hel & _).
  exists a'. split; [ exact Hpush | ]. split; [ exact Hcap | ].
  rewrite Hel. reflexivity.
Defined.

(** A push that reports success on a well-formed buffer was either served by
    the allocator or had room. *)
Lemma push_success_was_served_or_had_room
    (ok : bool) (a a1 : DynamicArray) (v : block) :
  well_formed a -> push_dynamic_array ok a v = Done (a1, true) ->
  ok = true \/ count a < capacity a.
Proof.
  intros (_ & _ & _ & Hle & _) Hpush.
  destruct ok; [ left; reflexivity | right ].
  destruct (Z.eq_dec (count a) (capacity a)) as [E | E]; [ | lia ].
  unfold push_dynamic_array in Hpush.
  assert (G : push_grow false a = None) by (apply push_grow_none; auto).
  rewrite G in Hpush. discriminate.
Qed.

(** Pop undoes the last push: after a successful push on a buffer that
    satisfies the data-model invariant (capacity at least 1, doubled size
    within [size_t]), Pop succeeds, hands out the [element_size] bytes that
    were pushed, and leaves count, element size and the stored elements as
    they were before the push. *)
Theorem pop_after_push_hands_back_pushed_bytes :
  forall (ok : bool) (a a1 : DynamicArray) (v buf : block),
    well_formed a -> 0 < capacity a ->
    2 * capacity a < SizeT.modulus ->
    element_size a * (2 * capacity a) < SizeT.modulus ->
    element_size a <= blen v -> element_size a <= blen buf ->
    push_dynamic_array ok a v = Done (a1, true) ->
    exists a2 : DynamicArray,
      pop_dynamic_array a1 (Some buf) =
        Done (a2,
              Some (take (element_size a) v ++ drop (element_size a) buf),
              true) /\
      count a2 = count a /\ element_size a2 = element_size a /\
      stored_elements a2 = stored_elements a /\
      well_formed a2.
Proof.
  intros ok a a1 v buf Hwf Hpos Hdbl Hfit Hv Hbuf Hpush.
  pose proof (push_success_was_served_or_had_room ok a a1 v Hwf Hpush) as Hok.
  destruct (push_effect ok a v Hwf Hpos Hdbl Hfit Hv Hok)
    as (a1' & Hpush' & Hc1 & _ & He1 & Hs1 & Hwf1).
  rewrite Hpush in Hpush'. injection Hpush' as <-.
  assert (Hc : 0 <= count a) by (destruct Hwf as ((? & _) & _); lia).
  assert (Hcount1 : 1 <= count a1) by lia.
  assert (Hbuf1 : element_size a1 <= blen buf) by lia.
  destruct (pop_effect a1 buf Hwf1 Hcount1 Hbuf1)
    as (bytes & Hlen & _ & Hpop & _ & Hsplit & _ & Hwf2).
  assert (Hsame : stored_elements (set_count a1 (count a1 - 1)) =
                  stored_elements a /\ bytes = take (element_size a) v).
  { apply app_same_length.
    - rewrite <- Hsplit. exact Hs1.
    - rewrite Hlen, He1, blen_take by
        (destruct Hwf as (_ & _ & (? & _) & _); lia).
      destruct Hwf as (_ & _ & (? & _) & _). lia. }
  destruct Hsame as (Hstored & ->).
  exists (set_count a1 (count a1 - 1)).
  rewrite He1 in Hpop.
  split; [ exact Hpop | ].
  split; [ fields; lia | ].
  split; [ exact He1 | ].
  split; [ exact Hstored | exact Hwf2 ].
Qed.

Lemma pop_after_push_hands_back_pushed_bytes_witness :
  exists a2 : DynamicArray,
    pop_dynamic_array
      {| data := Some (le10 ++ le20 ++ le30 ++ fresh 4); count := 3;
         capacity := 4; element_size := 4 |} (Some (fresh 4)) =
      Done (a2, Some (take (element_size roomy_array) le30 ++
                      drop (element_size roomy_array) (fresh 4)), true) /\
    stored_elements a2 = stored_elements roomy_array.
Proof.
  assert (H1 : 0 < capacity roomy_array) by (simpl; lia).
  assert (H2 : 2 * capacity roomy_array < SizeT.modulus)
    by (unfold SizeT.modulus; simpl; lia).
  assert (H3 : element_size roomy_array * (2 * capacity roomy_array)
               < SizeT.modulus)
    by (unfold SizeT.modulus; simpl; lia).
  assert (H4 : element_size roomy_array <= blen le30)
    by (unfold blen; simpl; lia).
  assert (H5 : element_size roomy_array <= blen (fresh 4))
    by (unfold blen; simpl; lia).
  assert (H6 : push_dynamic_array false roomy_array le30 =
               Done ({| data := Some (le10 ++ le20 ++ le30 ++ fresh 4);
                        count := 3; capacity := 4; element_size := 4 |},
                     true)) by reflexivity.
  destruct (pop_after_push_hands_back_pushed_bytes false roomy_array _ le30
              (fresh 4) roomy_array_well_formed H1 H2 H3 H4 H5 H6)
    as (a2 & Hpop & _ & _ & Hel & _).
  exists a2. split; [ exact Hpop | exact Hel ].
Defined.

(** ** Pushes within the capacity *)

Lemma pushes_with_room (vs : list block) :
  forall (oks : list bool) (a : DynamicArray),
    well_formed a ->
    count a + Z.of_nat (length vs) <= capacity a ->
    length oks = length vs ->
    Forall (fun v => element_size a <= blen v) vs ->
    exists a' : DynamicArray,
      push_all oks a vs = Some a' /\
      count a' = count a + Z.of_nat (length vs) /\
      capacity a' = capacity a /\
      element_size a' = element_size a /\
      stored_elements a' =
        stored_elements a ++ concat (map (take (element_size a)) vs) /\
      well_formed a'.
Proof.
  induction vs as [ | v vs' IH ]; intros oks a Hwf Hroom Hlen Hall.
  - exists a. simpl. rewrite app_nil_r.
    split; [ destruct oks; reflexivity | ].
    split; [ lia | ]. auto.
  - destruct oks as [ | ok oks' ]; [ discriminate | ].
    inversion Hall as [ | v0 vs0 Hv Hall' ]; subst.
    simpl length in Hroom.
    assert (Hlt : count a < capacity a) by lia.
    destruct (push_with_room a v Hwf Hlt Hv)
      as (a1 & Hpush & Hc1 & Hcap1 & He1 & Hs1 & Hwf1).
    assert (Hroom1 : count a1 + Z.of_nat (length vs') <= capacity a1) by lia.
    assert (Hlen1 : length oks' = length vs') by (simpl in Hlen; lia).
    assert (Hall1 : Forall (fun v => element_size a1 <= blen v) vs')
      by (rewrite He1; exact Hall').
    destruct (IH oks' a1 Hwf1 Hroom1 Hlen1 Hall1)
      as (a' & Hrest & Hc' & Hcap' & He' & Hs' & Hwf').
    exists a'. simpl push_all. rewrite (Hpush ok).
    split; [ exact Hrest | ].
    split; [ simpl length; lia | ].
    split; [ lia | ]. split; [ congruence | ].
    split; [ | exact Hwf' ].
    rewrite Hs', Hs1, He1. simpl. rewrite <- app_assoc. reflexivity.
Qed.

(** As long as the elements fit in the current capacity, pushes never
    consult the allocator: on a buffer that satisfies the data-model
    invariant, [k] pushes with [count + k <= capacity] all succeed whatever
    the allocator would answer, leave the capacity as it is, and store the
    pushed values in order after the elements already there. *)
Theorem pushes_within_capacity_need_no_allocator :
  forall (vs : list block) (oks : list bool) (a : DynamicArray),
    well_formed a ->
    count a + Z.of_nat (length vs) <= capacity a ->
    length oks = length vs ->
    Forall (fun v => element_size a <= blen v) vs ->
    exists a' : DynamicArray,
      push_all oks a vs = Some a' /\
      count a' = count a + Z.of_nat (length vs) /\
      capacity a' = capacity a /\
      element_size a' = element_size a /\
      stored_elements a' =
        stored_elements a ++ concat (map (take (element_size a)) vs) /\
      well_formed a'.
Proof. exact pushes_with_room. Qed.

Lemma pushes_within_capacity_need_no_allocator_witness :
  exists a' : DynamicArray,
    push_all [false; false] roomy_array [le30; le10] = Some a' /\
    capacity a' = capacity roomy_array /\
    stored_elements a' = le10 ++ le20 ++ le30 ++ le10.
Proof.
  assert (Hroom : count roomy_array + Z.of_nat (length [le30; le10])
                  <= capacity roomy_array) by (simpl; lia).
  assert (Hlen : length [false; false] = length [le30; le10]) by reflexivity.
  assert (Hall : Forall (fun v => element_size roomy_array <= blen v)
                   [le30; le10])
    by (repeat constructor; unfold blen; simpl; lia).
  destruct (pushes_within_capacity_need_no_allocator [le30; le10]
              [false; false] roomy_array roomy_array_well_formed
              Hroom Hlen Hall)
    as (a' & Hpush & _ & Hcap & _ & Hel & _).
  exists a'. split; [ exact Hpush | ]. split; [ exact Hcap | ].
  rewrite Hel. reflexivity.
Defined.

(** ** Reserve, then push *)

Lemma reserve_served (a : DynamicArray) (n : Z) :
  well_formed a -> SizeT.in_range n -> capacity a < n ->
  n * element_size a < SizeT.modulus ->
  exists a1 : DynamicArray,
    reserve_dynamic_array true a n = (a1, true) /\
    capacity a1 = n /\ count a1 = count a /\
    element_size a1 = element_size a /\
    stored_elements a1 = stored_elements a /\
    well_formed a1.
Proof.
  intros (Hc & Hcap & Hes & Hle & Hsz & Hd) Hn Hlt Hfit.
  unfold SizeT.in_range in *.
  unfold reserve_dynamic_array.
  destruct (Z.geb_spec (capacity a) n) as [Hge | _]; [ lia | ].
  cbv zeta. rewrite mul_small by lia. unfold realloc.
  eexists. split; [ reflexivity | ].
  unfold stored_elements, well_formed, SizeT.in_range. fields.
  destruct (data a) as [b | ].
  - repeat split; try lia.
    + apply take_resize; nia.
    + rewrite blen_resize by nia. lia.
  - assert (Hz : count a = 0) by lia.
    rewrite Hz, Z.mul_0_r.
    repeat split; try lia.
    rewrite blen_fresh. nia.
Qed.

(** After a served Reserve to [n] elements (byte size within [size_t]) the
    buffer takes pushes up to [n] elements in total without any further
    allocation: they succeed even if every later allocation would be
    refused, the capacity stays [n], and the old elements are followed by
    the pushed values in order. *)
Theorem reserve_makes_room_for_pushes :
  forall (a : DynamicArray) (n : Z) (vs : list block) (oks : list bool),
    well_formed a -> SizeT.in_range n -> capacity a < n ->
    n * element_size a < SizeT.modulus ->
    count a + Z.of_nat (length vs) <= n ->
    length oks = length vs ->
    Forall (fun v => element_size a <= blen v) vs ->
    exists a' : DynamicArray,
      push_all oks (fst (reserve_dynamic_array true a n)) vs = Some a' /\
      capacity a' = n /\
      count a' = count a + Z.of_nat (length vs) /\
      stored_elements a' =
        stored_elements a ++ concat (map (take (element_size a)) vs) /\
      well_formed a'.
Proof.
  intros a n vs oks Hwf Hn Hlt Hfit Hroom Hlen Hall.
  destruct (reserve_served a n Hwf Hn Hlt Hfit)
    as (a1 & Hres & Hcap1 & Hc1 & He1 & Hs1 & Hwf1).
  rewrite Hres. cbn [fst].
  assert (Hroom1 : count a1 + Z.of_nat (length vs) <= capacity a1) by lia.
  assert (Hall1 : Forall (fun v => element_size a1 <= blen v) vs)
    by (rewrite He1; exact Hall).
  destruct (pushes_with_room vs oks a1 Hwf1 Hroom1 Hlen Hall1)
    as (a' & Hpush & Hc' & Hcap' & He' & Hs' & Hwf').
  exists a'. split; [ exact Hpush | ].
  split; [ lia | ]. split; [ lia | ].
  split; [ rewrite Hs', Hs1, He1; reflexivity | exact Hwf' ].
Qed.

Lemma reserve_makes_room_for_pushes_witness :
  exists a' : DynamicArray,
    push_all [false; false]
      (fst (reserve_dynamic_array true full_array 4)) [le30; le10] =
      Some a' /\
    capacity a' = 4 /\
    stored_elements a' = le10 ++ le20 ++ le30 ++ le10.
Proof.
  assert (Hn : SizeT.in_range 4)
    by (unfold SizeT.in_range, SizeT.modulus; lia).
  assert (Hlt : capacity full_array < 4) by (simpl; lia).
  assert (Hfit : 4 * element_size full_array < SizeT.modulus)
    by (unfold SizeT.modulus; simpl; lia).
  assert (Hroom : count full_array + Z.of_nat (length [le30; le10]) <= 4)
    by (simpl; lia).
  assert (Hlen : length [false; false] = length [le30; le10]) by reflexivity.
  assert (Hall : Forall (fun v => element_size full_array <= blen v)
                   [le30; le10])
    by (repeat constructor; unfold blen; simpl; lia).
  destruct (reserve_makes_room_for_pushes full_array 4 [le30; le10]
              [false; false] full_array_well_formed Hn Hlt Hfit Hroom Hlen
              Hall)
    as (a' & Hpush & Hcap & _ & Hel & _).
  exists a'. split; [ exact Hpush | ]. split; [ exact Hcap | ].
  rewrite Hel. reflexivity.
Defined.

(** ** Clear *)

(** Clear always reports success, sets [count] to 0 and leaves storage,
    capacity and element size alone, so that every index becomes absent; on
    a buffer that satisfies the data-model invariant with capacity at least 1
    the next push reuses the storage: it succeeds whatever the allocator
    would answer, keeps the capacity and stores its value as element 0. *)
Theorem clear_keeps_storage_for_reuse :
  forall (a : DynamicArray) (v : block),
    well_formed a -> 0 < capacity a -> element_size a <= blen v ->
    snd (clear_dynamic_array a) = true /\
    data (fst (clear_dynamic_array a)) = data a /\
    capacity (fst (clear_dynamic_array a)) = capacity a /\
    element_size (fst (clear_dynamic_array a)) = element_size a /\
    count (fst (clear_dynamic_array a)) = 0 /\
    (forall i, 0 <= i ->
       get_dynamic_array_element (fst (clear_dynamic_array a)) i = NullPtr) /\
    exists a' : DynamicArray,
      (forall ok,
          push_dynamic_array ok (fst (clear_dynamic_array a)) v =
          Done (a', true)) /\
      capacity a' = capacity a /\ count a' = 1 /\
      stored_elements a' = take (element_size a) v.
Proof.
  intros a v Hwf Hpos Hv.
  assert (Hwfc : well_formed (fst (clear_dynamic_array a))).
  { destruct Hwf as (Hc & Hcap & Hes & Hle & Hsz & Hd).
    unfold well_formed, SizeT.in_range in *. simpl. repeat split; try lia.
    exact Hd. }
  split; [ reflexivity | ]. split; [ reflexivity | ].
  split; [ reflexivity | ]. split; [ reflexivity | ].
  split; [ reflexivity | ].
  split.
  - intros i Hi. unfold get_dynamic_array_element. simpl.
    destruct (Z.geb_spec i 0); [ reflexivity | lia ].
  - assert (Hroom : count (fst (clear_dynamic_array a)) <
                    capacity (fst (clear_dynamic_array a))) by (simpl; lia).
    destruct (push_with_room (fst (clear_dynamic_array a)) v Hwfc Hroom Hv)
      as (a' & Hpush & Hc' & Hcap' & _ & Hs' & _).
    exists a'. split; [ exact Hpush | ].
    split; [ exact Hcap' | ]. split; [ exact Hc' | ].
    rewrite Hs'. unfold stored_elements. simpl.
    destruct (data a); rewrite ?Z.mul_0_r; reflexivity.
Qed.

Lemma clear_keeps_storage_for_reuse_witness :
  get_dynamic_array_element (fst (clear_dynamic_array full_array)) 0 =
    NullPtr /\
  exists a' : DynamicArray,
    push_dynamic_array false (fst (clear_dynamic_array full_array)) le30 =
      Done (a', true) /\
    stored_elements a' = le30.
Proof.
  assert (Hpos : 0 < capacity full_array) by (simpl; lia).
  assert (Hv : element_size full_array <= blen le30)
    by (unfold blen; simpl; lia).
  destruct (clear_keeps_storage_for_reuse full_array le30
              full_array_well_formed Hpos Hv)
    as (_ & _ & _ & _ & _ & Hnull & a' & Hpush & _ & _ & Hel).
  split; [ apply Hnull; lia | ].
  exists a'. split; [ apply Hpush | ]. rewrite Hel. reflexivity.
Defined.

(** ** Free *)

(** Freeing twice is safe: after [free_dynamic_array] the buffer has no
    storage, a second call reports [false] and changes nothing, and a buffer
    that owned storage is left zeroed, so that every index is absent and a
    following Pop reports failure. *)
Theorem free_twice_is_safe :
  forall (a : DynamicArray) (dst : option block),
    data a <> None ->
    free_dynamic_array a = (zeroed, true) /\
    free_dynamic_array (fst (free_dynamic_array a)) = (zeroed, false) /\
    (forall i, 0 <= i ->
       get_dynamic_array_element (fst (free_dynamic_array a)) i = NullPtr) /\
    pop_dynamic_array (fst (free_dynamic_array a)) dst =
      Done (zeroed, dst, false) /\
    well_formed (fst (free_dynamic_array a)).
Proof.
  intros a dst Hd.
  assert (E : free_dynamic_array a = (zeroed, true)).
  { unfold free_dynamic_array. destruct (data a); [ reflexivity | congruence ]. }
  rewrite E. cbn [fst].
  split; [ reflexivity | ]. split; [ reflexivity | ].
  split.
  - intros i Hi. unfold get_dynamic_array_element. simpl.
    destruct (Z.geb_spec i 0); [ reflexivity | lia ].
  - split; [ reflexivity | ].
    unfold well_formed, SizeT.in_range, SizeT.modulus. simpl. lia.
Qed.

Lemma free_twice_is_safe_witness :
  free_dynamic_array full_array = (zeroed, true) /\
  free_dynamic_array (fst (free_dynamic_array full_array)) = (zeroed, false).
Proof.
  assert (Hd : data full_array <> None) by discriminate.
  destruct (free_twice_is_safe full_array None Hd) as (H1 & H2 & _).
  split; [ exact H1 | exact H2 ].
Defined.

(** ** Copy *)

(** On a source that satisfies the data-model invariant, Copy never faults.
    It reports [true] exactly when the allocation was served and the source
    owns storage.  A refused allocation leaves the destination zeroed.  A
    served one leaves a destination with its own storage and the count,
    capacity and element size of the source, that satisfies the invariant,
    holds the same stored elements, and answers every Get and read as the
    source does.  What the destination held before is never read. *)
Theorem copy_is_a_deep_copy :
  forall (ok : bool) (src dst : DynamicArray),
    well_formed src ->
    exists (dst' : DynamicArray) (r : bool),
      copy_dynamic_array ok src dst = Done (dst', r) /\
      (forall other, copy_dynamic_array ok src other = Done (dst', r)) /\
      (r = true <-> ok = true /\ data src <> None) /\
      (ok = false -> dst' = zeroed) /\
      (ok = true ->
       data dst' <> None /\
       count dst' = count src /\ capacity dst' = capacity src /\
       element_size dst' = element_size src /\
       stored_elements dst' = stored_elements src /\
       well_formed dst' /\
       forall i, 0 <= i ->
         get_dynamic_array_element dst' i = get_dynamic_array_element src i /\
         read_element dst' (get_dynamic_array_element dst' i) =
         read_element src (get_dynamic_array_element src i)).
Proof.
  intros ok src dst Hwf.
  pose proof Hwf as (Hc & Hcap & Hes & Hle & Hsz & Hd).
  unfold SizeT.in_range in *.
  destruct ok.
  - assert (Hshape : exists b' r,
               (forall d, copy_dynamic_array true src d =
                          Done ({| data := Some b'; count := count src;
                                   capacity := capacity src;
                                   element_size := element_size src |}, r)) /\
               (r = true <-> data src <> None) /\
               blen b' = element_size src * capacity src /\
               take (element_size src * count src) b' = stored_elements src).
    { unfold copy_dynamic_array, malloc, stored_elements. cbv zeta. fields.
      rewrite !mul_small by nia.
      destruct (data src) as [sb | ] eqn:Edata.
      - rewrite load_in_bounds by nia. cbn [bind]. rewrite drop_zero.
        assert (Hbytes : blen (take (element_size src * count src) sb) =
                         element_size src * count src)
          by (rewrite blen_take by nia; nia).
        rewrite store_in_bounds by (rewrite Hbytes, blen_fresh; nia).
        cbn [bind]. rewrite take_zero, Hbytes. do 2 eexists.
        split; [ intros d; reflexivity | ].
        split; [ split; [ discriminate | reflexivity ] | ].
        split.
        + simpl app. rewrite blen_app, Hbytes, blen_drop, blen_fresh by nia.
          nia.
        + simpl app. apply take_exact_app. exact Hbytes.
      - do 2 eexists.
        split; [ intros d; reflexivity | ].
        split; [ split; [ discriminate | congruence ] | ].
        split; [ rewrite blen_fresh; nia | ].
        assert (Hz : count src = 0) by lia.
        rewrite Hz, Z.mul_0_r. reflexivity. }
    destruct Hshape as (b' & r & Hcopy & Hr & Hlen & Hpre).
    set (dst' := {| data := Some b'; count := count src;
                    capacity := capacity src;
                    element_size := element_size src |}).
    assert (Hwf' : well_formed dst').
    { unfold well_formed, SizeT.in_range, dst'. simpl. repeat split; lia. }
    assert (Hs' : stored_elements dst' = stored_elements src)
      by (unfold stored_elements at 1; simpl; exact Hpre).
    exists dst', r.
    split; [ apply Hcopy | ]. split; [ apply Hcopy | ].
    split; [ rewrite Hr; tauto | ].
    split; [ discriminate | intros _ ].
    split; [ discriminate | ].
    do 3 (split; [ reflexivity | ]).
    split; [ exact Hs' | ]. split; [ exact Hwf' | ].
    intros i Hi.
    split; [ reflexivity | ].
    destruct (Z.lt_ge_cases i (count src)) as [Hlt | Hge].
    + destruct (get_effect dst' i Hwf' Hi) as (_ & Hrd).
      destruct (get_effect src i Hwf Hi) as (_ & Hrs).
      destruct (Hrd Hlt) as (_ & ->). destruct (Hrs Hlt) as (_ & ->).
      rewrite Hs'. reflexivity.
    + destruct (get_effect dst' i Hwf' Hi) as (Hnd & _).
      destruct (get_effect src i Hwf Hi) as (Hns & _).
      rewrite (Hnd Hge), (Hns Hge). reflexivity.
  - exists zeroed, false.
    split; [ reflexivity | ]. split; [ reflexivity | ].
    split; [ split; [ discriminate | intros [E _]; discriminate ] | ].
    split; [ reflexivity | discriminate ].
Qed.

Lemma copy_is_a_deep_copy_witness :
  exists (dst' : DynamicArray) (r : bool),
    copy_dynamic_array true roomy_array zeroed = Done (dst', r) /\
    r = true /\
    capacity dst' = 4 /\
    stored_elements dst' = le10 ++ le20.
Proof.
  destruct (copy_is_a_deep_copy true roomy_array zeroed
              roomy_array_well_formed)
    as (dst' & r & Hcopy & _ & Hr & _ & Hserved).
  exists dst', r. split; [ exact Hcopy | ].
  split; [ apply Hr; split; [ reflexivity | discriminate ] | ].
  destruct (Hserved eq_refl) as (_ & _ & Hcap & _ & Hel & _).
  split; [ exact Hcap | rewrite Hel; reflexivity ].
Defined.

Lemma count_le_capacity_kept_witness :
  count (fst (shrink_dynamic_array true roomy_array)) <=
    capacity (fst (shrink_dynamic_array true roomy_array)) /\
  (forall a' r,
      push_dynamic_array true full_array le30 = Done (a', r) ->
      count a' <= capacity a').
Proof.
  assert (Hinv : 0 <= count roomy_array <= capacity roomy_array)
    by (simpl; lia).
  assert (Hinv' : 0 <= count full_array <= capacity full_array)
    by (simpl; lia).
  destruct (count_le_capacity_kept roomy_array Hinv)
    as (_ & _ & _ & _ & _ & Hshrink & _).
  destruct (count_le_capacity_kept full_array Hinv')
    as (_ & Hpush & _).
  split; [ apply Hshrink | ].
  intros a' r H.
  apply (Hpush true le30 a' r); [ simpl; lia | | exact H ].
  unfold SizeT.modulus. simpl. lia.
Defined.

(** ** Shrink, then push *)

Lemma shrink_served (a : DynamicArray) :
  well_formed a -> count a <> 0 ->
  exists s : DynamicArray,
    shrink_dynamic_array true a = (s, true) /\
    capacity s = count a /\ count s = count a /\
    element_size s = element_size a /\
    stored_elements s = stored_elements a /\
    well_formed s.
Proof.
  intros (Hc & Hcap & Hes & Hle & Hsz & Hd) Hnz.
  unfold SizeT.in_range in *.
  unfold shrink_dynamic_array.
  destruct (Z.eqb_spec (count a) 0) as [E | _]; [ contradiction | ].
  cbv zeta. rewrite mul_small by nia. unfold realloc.
  eexists. split; [ reflexivity | ].
  unfold stored_elements, well_formed, SizeT.in_range. fields.
  destruct (data a) as [b | ]; [ | lia ].
  repeat split; try lia; try nia.
  - apply take_resize; nia.
  - rewrite blen_resize by nia. reflexivity.
Qed.

(** A refused growth asks for zero bytes only when the block is empty
    already. *)
Lemma refused_growth_keeps_buffer (a : DynamicArray) :
  well_formed a -> 0 < capacity a ->
  2 * capacity a < SizeT.modulus ->
  element_size a * (2 * capacity a) < SizeT.modulus ->
  set_data a (left_behind (data a) (push_new_size a)) = a.
Proof.
  intros (Hc & Hcap & Hes & Hle & Hsz & Hd) Hpos Hdbl Hfit.
  unfold SizeT.in_range in *.
  assert (E : left_behind (data a) (push_new_size a) = data a).
  { unfold push_new_size, push_new_capacity.
    rewrite (mul_small (capacity a) 2) by lia. rewrite mul_small by nia.
    destruct (data a) as [b | ]; [ | reflexivity ].
    destruct (Z.eq_dec (element_size a * (capacity a * 2)) 0) as [Z0 | Z0].
    - apply left_behind_empty. nia.
    - apply left_behind_kept. left. exact Z0. }
  rewrite E. apply set_data_same.
Qed.

(** A buffer that was shrunk to fit is full.  On a non-empty buffer that
    satisfies the data-model invariant, after a served Shrink the next push
    has to reallocate: with the allocation refused it reports failure and
    leaves the shrunk buffer as it is, and with the allocation served
    (doubled size within [size_t]) it succeeds, doubles the capacity to
    twice the count and keeps the stored elements in front of the new one. *)
Theorem push_after_shrink_must_reallocate :
  forall (a : DynamicArray) (v : block),
    well_formed a -> 1 <= count a ->
    2 * count a < SizeT.modulus ->
    element_size a * (2 * count a) < SizeT.modulus ->
    element_size a <= blen v ->
    exists s : DynamicArray,
      shrink_dynamic_array true a = (s, true) /\
      count s = capacity s /\ capacity s = count a /\
      push_dynamic_array false s v = Done (s, false) /\
      exists a' : DynamicArray,
        push_dynamic_array true s v = Done (a', true) /\
        capacity a' = 2 * count a /\ count a' = count a + 1 /\
        stored_elements a' = stored_elements a ++ take (element_size a) v.
Proof.
  intros a v Hwf Hcount Hdbl Hfit Hv.
  assert (Hnz : count a <> 0) by lia.
  destruct (shrink_served a Hwf Hnz)
    as (s & Hshrink & Hcaps & Hcs & Hes & Hss & Hwfs).
  exists s. split; [ exact Hshrink | ].
  split; [ lia | ]. split; [ exact Hcaps | ].
  split.
  - unfold push_dynamic_array.
    assert (G : push_grow false s = None)
      by (apply push_grow_none; split; [ lia | reflexivity ]).
    rewrite G. rewrite refused_growth_keeps_buffer; [ reflexivity | | | | ].
    + exact Hwfs.
    + lia.
    + rewrite Hcaps. exact Hdbl.
    + rewrite Hcaps, Hes. exact Hfit.
  - assert (H1 : 0 < capacity s) by lia.
    assert (H2 : 2 * capacity s < SizeT.modulus) by (rewrite Hcaps; exact Hdbl).
    assert (H3 : element_size s * (2 * capacity s) < SizeT.modulus)
      by (rewrite Hcaps, Hes; exact Hfit).
    assert (H4 : element_size s <= blen v) by lia.
    destruct (push_effect true s v Hwfs H1 H2 H3 H4 (or_introl eq_refl))
      as (a' & Hpush & Hc' & Hcap' & _ & Hs' & _).
    exists a'. split; [ exact Hpush | ].
    assert (Hfull : (count s =? capacity s) = true) by (apply Z.eqb_eq; lia).
    rewrite Hfull in Hcap'.
    split; [ lia | ]. split; [ lia | ].
    rewrite Hs', Hss, Hes. reflexivity.
Qed.

Lemma push_after_shrink_must_reallocate_witness :
  exists s : DynamicArray,
    shrink_dynamic_array true roomy_array = (s, true) /\
    push_dynamic_array false s le30 = Done (s, false) /\
    exists a' : DynamicArray,
      push_dynamic_array true s le30 = Done (a', true) /\
      capacity a' = 4 /\
      stored_elements a' = le10 ++ le20 ++ le30.
Proof.
  assert (H1 : 1 <= count roomy_array) by (simpl; lia).
  assert (H2 : 2 * count roomy_array < SizeT.modulus)
    by (unfold SizeT.modulus; simpl; lia).
  assert (H3 : element_size roomy_array * (2 * count roomy_array)
               < SizeT.modulus)
    by (unfold SizeT.modulus; simpl; lia).
  assert (H4 : element_size roomy_array <= blen le30)
    by (unfold blen; simpl; lia).
  destruct (push_after_shrink_must_reallocate roomy_array le30
              roomy_array_well_formed H1 H2 H3 H4)
    as (s & Hshrink & _ & _ & Hfail & a' & Hpush & Hcap & _ & Hel).
  exists s. split; [ exact Hshrink | ]. split; [ exact Hfail | ].
  exists a'. split; [ exact Hpush | ]. split; [ exact Hcap | ].
  rewrite Hel. reflexivity.
Defined.

(** ** Free in the two variants *)

(** The void-returning [free_dynamic_array] always leaves the zeroed buffer.
    The boolean-returning one leaves the zeroed buffer when there was
    storage, and otherwise leaves every field as it was, so the two leave
    the same state exactly when the buffer owned storage or was already
    zeroed. *)
Theorem free_variants_agree_iff_storage_or_zeroed :
  forall a : DynamicArray,
    VoidVariant.free_dynamic_array a = zeroed /\
    (data a <> None -> fst (BoolVariant.free_dynamic_array a) = zeroed) /\
    (data a = None -> fst (BoolVariant.free_dynamic_array a) = a) /\
    (VoidVariant.free_dynamic_array a =
       fst (BoolVariant.free_dynamic_array a) <->
     data a <> None \/ a = zeroed).
Proof.
  intros a.
  assert (Hv : VoidVariant.free_dynamic_array a = zeroed) by reflexivity.
  assert (Hs : data a <> None ->
               fst (BoolVariant.free_dynamic_array a) = zeroed).
  { unfold BoolVariant.free_dynamic_array.
    destruct (data a); [ reflexivity | congruence ]. }
  assert (Hn : data a = None -> fst (BoolVariant.free_dynamic_array a) = a).
  { unfold BoolVariant.free_dynamic_array. intros ->. reflexivity. }
  split; [ exact Hv | ]. split; [ exact Hs | ]. split; [ exact Hn | ].
  rewrite Hv. split.
  - intros E. destruct (data a) as [b | ] eqn:Edata.
    + left. discriminate.
    + right. rewrite (Hn eq_refl) in E. symmetry. exact E.
  - intros [Hd | ->]; [ symmetry; apply Hs; exact Hd | reflexivity ].
Qed.

Lemma free_variants_agree_iff_storage_or_zeroed_witness :
  VoidVariant.free_dynamic_array full_array =
    fst (BoolVariant.free_dynamic_array full_array) /\
  VoidVariant.free_dynamic_array
    {| data := None; count := 0; capacity := 0; element_size := 4 |} <>
  fst (BoolVariant.free_dynamic_array
         {| data := None; count := 0; capacity := 0; element_size := 4 |}).
Proof.
  split.
  - apply (free_variants_agree_iff_storage_or_zeroed full_array).
    left. discriminate.
  - intros E.
    apply (free_variants_agree_iff_storage_or_zeroed
             {| data := None; count := 0; capacity := 0;
                element_size := 4 |}) in E.
    destruct E as [E | E]; [ apply E; reflexivity | discriminate E ].
Defined.

(** ** Growth that leaves no room *)

Lemma wrap_once (x : Z) :
  SizeT.modulus <= x < 2 * SizeT.modulus -> SizeT.wrap x = x - SizeT.modulus.
Proof.
  intros H. unfold SizeT.wrap.
  replace x with (x - SizeT.modulus + 1 * SizeT.modulus) at 1 by lia.
  rewrite Z_mod_plus_full. apply Z.mod_small. lia.
Qed.

(** The byte size requested by the growth step is too small for one more
    element when the capacity is 0 or the doubled size wraps around. *)
Lemma grown_size_has_no_room (e c : Z) :
  0 < e < SizeT.modulus -> 0 <= c < SizeT.modulus ->
  e * c < SizeT.modulus ->
  c = 0 \/ SizeT.modulus <= e * (2 * c) ->
  SizeT.mul e (SizeT.mul c 2) < e * c + e.
Proof.
  intros He Hc Hfit Hcase. unfold SizeT.mul.
  destruct (Z.lt_ge_cases (c * 2) SizeT.modulus) as [Hsmall | Hbig].
  - rewrite (wrap_small (c * 2)) by (unfold SizeT.in_range; lia).
    destruct Hcase as [-> | Hover].
    + replace (e * (0 * 2)) with 0 by lia.
      rewrite wrap_small by (unfold SizeT.in_range; lia). lia.
    + rewrite wrap_once by nia. nia.
  - assert (E : e = 1) by nia. subst e.
    rewrite (wrap_once (c * 2)) by lia.
    rewrite Z.mul_1_l. rewrite wrap_small by (unfold SizeT.in_range; lia).
    lia.
Qed.

(** A served push on a full buffer whose growth leaves no room, because the
    capacity is 0 or because the doubled byte size wraps around in [size_t],
    does not report failure: [realloc] hands back a block too small for
    [count + 1] elements and the copy of the new element runs past its end
    (or the caller's buffer was too short to read from). *)
Theorem push_growth_without_room_faults :
  forall (a : DynamicArray) (v : block),
    SizeT.in_range (capacity a) ->
    0 < element_size a < SizeT.modulus ->
    count a = capacity a ->
    element_size a * capacity a < SizeT.modulus ->
    capacity a = 0 \/ SizeT.modulus <= element_size a * (2 * capacity a) ->
    push_dynamic_array true a v = Fault.
Proof.
  intros a v Hcap Hes Hfull Hfit Hcase.
  unfold SizeT.in_range in *.
  pose proof (grown_size_has_no_room (element_size a) (capacity a)
                Hes Hcap Hfit Hcase) as Hsmall.
  pose proof (mul_in_range (element_size a) (SizeT.mul (capacity a) 2))
    as Hrange.
  unfold SizeT.in_range in Hrange.
  unfold push_dynamic_array, push_grow, push_new_capacity.
  destruct (Z.eqb_spec (count a) (capacity a)) as [_ | E]; [ | lia ].
  cbv zeta. unfold realloc. fields.
  match goal with
  | |- context [bind ?m _] => destruct m as [bytes | ] eqn:Hload
  end; cbn [bind]; [ | reflexivity ].
  apply load_done in Hload.
  destruct Hload as (v' & Ev & Hin & ->). injection Ev as <-.
  assert (Hbytes : blen (take (element_size a) (drop 0 v)) = element_size a)
    by (rewrite drop_zero, blen_take by lia; lia).
  rewrite Hfull, (mul_small (capacity a) (element_size a)) by nia.
  unfold store.
  set (b1 := match data a with
             | Some b =>
                 resize b (SizeT.mul (element_size a)
                             (SizeT.mul (capacity a) 2))
             | None =>
                 fresh (SizeT.mul (element_size a) (SizeT.mul (capacity a) 2))
             end).
  assert (Hlen : blen b1 =
                 SizeT.mul (element_size a) (SizeT.mul (capacity a) 2)).
  { unfold b1. destruct (data a);
      [ apply blen_resize; lia | rewrite blen_fresh; lia ]. }
  rewrite Hbytes, Hlen.
  destruct (Z.leb_spec (capacity a * element_size a + element_size a)
              (SizeT.mul (element_size a) (SizeT.mul (capacity a) 2)));
    [ nia | reflexivity ].
Qed.

Lemma push_growth_without_room_faults_witness :
  push_dynamic_array true zero_capacity_array le10 = Fault /\
  push_dynamic_array true
    {| data := Some []; count := 1; capacity := 1;
       element_size := 2 ^ 63 |} le10 = Fault.
Proof.
  split.
  - apply push_growth_without_room_faults.
    + unfold SizeT.in_range, SizeT.modulus. simpl. lia.
    + unfold SizeT.modulus. simpl. lia.
    + reflexivity.
    + unfold SizeT.modulus. simpl. lia.
    + left. reflexivity.
  - apply push_growth_without_room_faults.
    + unfold SizeT.in_range, SizeT.modulus. simpl. lia.
    + unfold SizeT.modulus. simpl. lia.
    + reflexivity.
    + unfold SizeT.modulus. simpl. lia.
    + right. unfold SizeT.modulus. simpl. lia.
Defined.
